(** * Terraform provider resources: Cognito user and core-network policy attachment

    A shallow embedding of the two resource implementations
    ([package cognitoidp], resource [aws_cognito_user], and
    [package networkmanager], resource
    [aws_networkmanager_core_network_policy_attachment]) together with the
    properties their specification states about them.

    Go maps are finite maps ([gmap]) held in a store of map objects, because
    a Go map is a reference and [computeUserAttributesUpdate] deletes from
    one of its arguments.  The order in which [range] visits a map is not
    specified by Go; it is supplied by a [MapRange] oracle and every theorem
    holds for all oracles.  Handlers run in a small state monad over the
    local resource data, the remote service and a log of the remote calls
    issued. *)

From Stdlib Require Import Ascii String.
From stdpp Require Import gmap strings list fin_maps.

Open Scope string_scope.
Open Scope list_scope.

(** ** Go runtime: strings and maps *)

Abbreviation attrs := (gmap string string).

(** [strings.HasPrefix(s, prefix)]: [s] begins with [prefix]. *)
Fixpoint HasPrefix (s prefix : string) {struct prefix} : bool :=
  match prefix, s with
  | EmptyString, _ => true
  | String _ _, EmptyString => false
  | String c prefix', String c' s' => Ascii.eqb c c' && HasPrefix s' prefix'
  end.

Fixpoint string_skip (n : nat) (s : string) : string :=
  match n, s with
  | O, _ => s
  | S n', String _ s' => string_skip n' s'
  | S _, EmptyString => EmptyString
  end.

(** [strings.TrimPrefix(s, prefix)]: [s] without the leading [prefix], or
    [s] itself when it does not start with [prefix]. *)
Definition TrimPrefix (s prefix : string) : string :=
  if HasPrefix s prefix then string_skip (String.length prefix) s else s.

(** [strings.Split(s, sep)] for a one-byte separator: the substrings between
    the occurrences of [sep]; always at least one element. *)
Fixpoint Split (s : string) (sep : ascii) : list string :=
  match s with
  | EmptyString => [EmptyString]
  | String c s' =>
      if Ascii.eqb c sep then EmptyString :: Split s' sep
      else match Split s' sep with
           | p :: ps => String c p :: ps
           | [] => [String c EmptyString]
           end
  end.

(** [strings.Count(s, sep)] for a one-byte separator. *)
Fixpoint Count (s : string) (sep : ascii) : nat :=
  match s with
  | EmptyString => 0
  | String c s' => (if Ascii.eqb c sep then 1 else 0) + Count s' sep
  end.

(** The order in which a [for k, v := range m] loop produces the entries of
    [m].  Go leaves it unspecified; any enumeration of the entries without
    repetition is allowed.  An instance stands for the order of one loop:
    a statement that relates two enumerations of a map takes two instances,
    or an arbitrary list of the keys. *)
Class MapRange := {
  range : attrs → list (string * string);
  range_perm : ∀ m, range m ≡ₚ map_to_list m
}.

(** One admissible order: the enumeration of the map representation. *)
#[export] Instance range_canonical : MapRange :=
  {| range := map_to_list; range_perm := λ m, reflexivity _ |}.

(** Another one: the same enumeration backwards. *)
#[export] Instance range_reversed : MapRange :=
  {| range := λ m, reverse (map_to_list m);
     range_perm := λ m, reverse_Permutation _ |}.

(** Map objects live in a store; a variable of map type holds a reference. *)
Abbreviation loc := positive.
Abbreviation heap := (gmap loc attrs).

(** Reading through a reference; a nil map reads as empty. *)
Definition deref (h : heap) (l : loc) : attrs := default ∅ (h !! l).

(** [delete(m, k)] on the map object [l]; a no-op on a nil map. *)
Definition map_delete (l : loc) (k : string) (h : heap) : heap :=
  alter (delete k) l h.

(** ** AWS SDK helpers *)

(** [aws.StringValue]: the pointee, or the empty string for a nil pointer. *)
Definition StringValue (p : option string) : string := default "" p.

(** Go [error] values, as far as the handlers tell them apart. *)
#[warnings="-register-all"]
Inductive error :=
  | awsError (Code Message : string)     (* awserr.Error of a service call *)
  | errorString (s : string)             (* errors.New *)
  | NotFoundError (LastError : option error)  (* resource.NotFoundError *)
  | EmptyResultError.                    (* tfresource.NewEmptyResultError *)

(** [err.Error()] *)
Definition errorText (e : error) : string :=
  match e with
  | awsError c m => c +:+ ": " +:+ m
  | errorString s => s
  | NotFoundError _ => "couldn't find resource"
  | EmptyResultError => "empty result"
  end.

(** [tfawserr.ErrCodeEquals(err, codes...)]; false for a nil error. *)
Definition ErrCodeEquals (err : option error) (codes : list string) : bool :=
  match err with
  | Some (awsError c _) => existsb (String.eqb c) codes
  | _ => false
  end.

(** ** Plugin SDK *)

Module diag.

Inductive Severity := Error | Warning.

Record Diagnostic := { severity : Severity; Summary : string }.

Abbreviation Diagnostics := (list Diagnostic).

Definition HasError (diags : Diagnostics) : bool :=
  existsb (λ d, match severity d with Error => true | Warning => false end)
          diags.

(** [diag.Errorf]: a single error diagnostic carrying the message. *)
Definition Errorf (msg : string) : Diagnostics :=
  [ {| severity := Error; Summary := msg |} ].

(** [diag.FromErr] *)
Definition FromErr (err : option error) : Diagnostics :=
  match err with
  | None => []
  | Some e => Errorf (errorText e)
  end.

End diag.

Module schema.

(** The values a resource attribute of these two schemas can hold. *)
Inductive value :=
  | VBool (b : bool)
  | VString (s : string)
  | VSet (s : gset string)
  | VMap (m : attrs).

#[export] Instance value_eq_dec : EqDecision value.
Proof. solve_decision. Defined.

(** [schema.ResourceData].  An attribute that is absent reads as the zero
    value of its type.  [prior] is the state before the operation and
    [planned] the values the operation is to reach: the two sides of
    [GetChange].  [current] is what [Get] reads: the planned values
    overlaid with what the handler has [Set] so far. *)
Record ResourceData := {
  Id : string;
  IsNewResource : bool;
  TimeoutUpdate : Z;
  prior : gmap string value;
  planned : gmap string value;
  current : gmap string value
}.

Definition SetId (id : string) (d : ResourceData) : ResourceData :=
  {| Id := id; IsNewResource := IsNewResource d;
     TimeoutUpdate := TimeoutUpdate d;
     prior := prior d; planned := planned d; current := current d |}.

Definition Get (key : string) (d : ResourceData) : option value :=
  current d !! key.

(** [d.Set(key, v)]; [None] is Go's [nil] (also a nil pointer), after which
    the attribute reads as its zero value. *)
Definition Set_ (key : string) (v : option value) (d : ResourceData)
    : ResourceData :=
  {| Id := Id d; IsNewResource := IsNewResource d;
     TimeoutUpdate := TimeoutUpdate d;
     prior := prior d; planned := planned d;
     current := match v with
                | Some x => <[key := x]> (current d)
                | None => delete key (current d)
                end |}.

(** The type assertions on a value read from a field: to string, to bool,
    to a map of strings and to a set of strings. *)
Definition asString (v : option value) : string :=
  match v with Some (VString s) => s | _ => "" end.
Definition asBool (v : option value) : bool :=
  match v with Some (VBool b) => b | _ => false end.
Definition asMap (v : option value) : attrs :=
  match v with Some (VMap m) => m | _ => ∅ end.
Definition asSet (v : option value) : gset string :=
  match v with Some (VSet s) => s | _ => ∅ end.

Definition isZero (v : option value) : bool :=
  match v with
  | None => true
  | Some (VBool b) => negb b
  | Some (VString s) => String.eqb s ""
  | Some (VSet s) => bool_decide (s = ∅)
  | Some (VMap m) => bool_decide (m = ∅)
  end.

(** [d.GetOk(key)]: the value and whether it is set to a non-zero value. *)
Definition GetOk (key : string) (d : ResourceData) : option value * bool :=
  (Get key d, negb (isZero (Get key d))).

Definition GetChange (key : string) (d : ResourceData)
    : option value * option value :=
  (prior d !! key, planned d !! key).

(** [d.HasChange(key)]: the two sides of [GetChange] differ (an absent
    attribute equals the zero value). *)
Definition HasChange (key : string) (d : ResourceData) : bool :=
  let '(o, n) := GetChange key d in
  negb ((isZero o && isZero n) || bool_decide (o = n)).

End schema.

(** ** Running a handler

    A handler works on the resource data [d], talks to the remote service
    through its client and returns diagnostics.  [World] holds the resource
    data, the state of the remote service and the remote calls issued so
    far, each with the error it returned. *)

Record World (R C : Type) := mkWorld {
  data : schema.ResourceData;
  remote : R;
  log : list (C * option error)
}.
Arguments mkWorld {R C}.
Arguments data {R C}.
Arguments remote {R C}.
Arguments log {R C}.

(** A statement sequence either goes on with a value or has executed a
    [return] with the handler's diagnostics. *)
Definition M (W A : Type) : Type := W → (A + diag.Diagnostics) * W.

Definition ret {W A} (a : A) : M W A := λ w, (inl a, w).

Definition bind {W A B} (m : M W A) (k : A → M W B) : M W B :=
  λ w, match m w with
       | (inl a, w') => k a w'
       | (inr ds, w') => (inr ds, w')
       end.

(** [return ds] *)
Definition return_ {W A} (ds : diag.Diagnostics) : M W A := λ w, (inr ds, w).

Notation "x <- m ;; k" := (bind m (λ x, k))
  (at level 100, m at next level, right associativity).
Notation "m >> k" := (bind m (λ _, k))
  (at level 100, right associativity).

(** [if err != nil { return ds }] *)
Definition orReturn {W} (err : option error) (ds : error → diag.Diagnostics)
    : M W unit :=
  match err with
  | Some e => return_ (ds e)
  | None => ret tt
  end.

Definition Handler (W : Type) : Type := W → diag.Diagnostics * W.

(** A function body whose every path ends in [return]. *)
Definition func {W} (body : M W diag.Diagnostics) : Handler W :=
  λ w, match body w with
       | (inl ds, w') | (inr ds, w') => (ds, w')
       end.

(** Calling one handler from another. *)
Definition invoke {W} (h : Handler W) : M W diag.Diagnostics :=
  λ w, let '(ds, w') := h w in (inl ds, w').

Definition getData {R C} : M (World R C) schema.ResourceData :=
  λ w, (inl (data w), w).

Definition modifyData {R C} (f : schema.ResourceData → schema.ResourceData)
    : M (World R C) unit :=
  λ w, (inl tt, mkWorld (f (data w)) (remote w) (log w)).

(** A remote call [c] performed by [op]; [err] extracts the error result. *)
Definition remoteCall {R C A} (c : C) (op : R → A * R) (err : A → option error)
    : M (World R C) A :=
  λ w, let '(a, r) := op (remote w) in
       (inl a, mkWorld (data w) r (log w ++ [(c, err a)])).

(** Start of an invocation: nothing has been called yet. *)
Definition start {R C} (d : schema.ResourceData) (r : R) : World R C :=
  mkWorld d r [].

(** [schema.StateContextFunc]: the imported resource data (or nil), the
    error, and the resource data [d] as the function leaves it. *)
Definition Importer : Type :=
  schema.ResourceData →
  list schema.ResourceData * option error * schema.ResourceData.

(** [schema.Resource], its operations. *)
Record Resource (W : Type) := {
  CreateWithoutTimeout : Handler W;
  ReadWithoutTimeout : Handler W;
  UpdateWithoutTimeout : Handler W;
  DeleteWithoutTimeout : Handler W;
  StateContext : Importer
}.
Arguments CreateWithoutTimeout {W}.
Arguments ReadWithoutTimeout {W}.
Arguments UpdateWithoutTimeout {W}.
Arguments DeleteWithoutTimeout {W}.
Arguments StateContext {W}.

(** [schema.NoopContext]: does nothing and returns no diagnostics. *)
Definition NoopContext {W} : Handler W := λ w, ([], w).

(** [schema.ImportStatePassthroughContext] *)
Definition ImportStatePassthroughContext : Importer := λ d, ([d], None, d).

(** Helpers of the provider that the handlers call and whose code is not in
    the two files, taken as parameters. *)
Class Provider := {
  (** [tfresource.NotFound] on a non-nil error *)
  isNotFound : error → bool;
  (** [t.Format(time.RFC3339)] on a time in Unix seconds *)
  FormatRFC3339 : Z → string
}.

(** [tfresource.NotFound(err)] *)
Definition NotFound `{Provider} (err : option error) : bool :=
  match err with
  | Some e => isNotFound e
  | None => false
  end.

(** Modelled from the spec: [sdkdiag.AppendErrorf] is not in the two files;
    "any other remote call failure is wrapped with a contextual message and
    surfaced as a user-visible diagnostic": it appends one error diagnostic
    with the formatted message. *)
Definition AppendErrorf (diags : diag.Diagnostics) (msg : string)
    : diag.Diagnostics :=
  diags ++ diag.Errorf msg.

(** Modelled from the spec: [create.DiagError] is not in the two files; like
    [AppendErrorf] it surfaces the failure as one error diagnostic whose
    message names the service, the action, the resource and the error. *)
Definition DiagError (service action resource id : string) (gotError : error)
    : diag.Diagnostics :=
  diag.Errorf (action +:+ " " +:+ service +:+ " " +:+ resource +:+ " ("
               +:+ id +:+ "): " +:+ errorText gotError).

Module cognitoidp.

(** [cognitoidentityprovider.AttributeType] *)
Record AttributeType := { Name : option string; Value : option string }.

Definition standardAttributeKeys : list string :=
  [ "address"; "birthdate"; "email"; "email_verified"; "gender";
    "given_name"; "family_name"; "locale"; "middle_name"; "name";
    "nickname"; "phone_number"; "phone_number_verified"; "picture";
    "preferred_username"; "profile"; "sub"; "updated_at"; "website";
    "zoneinfo" ].

Definition UserAttributeKeyMatchesStandardAttribute (input : string) : bool :=
  if Nat.eqb (String.length input) 0 then false
  else existsb (String.eqb input) standardAttributeKeys.

Definition expandAttribute `{MapRange} (tfMap : attrs) : list AttributeType :=
  if Nat.eqb (size tfMap) 0 then []
  else
    (λ '(k, v),
       let k := if negb (UserAttributeKeyMatchesStandardAttribute k)
                   && negb (HasPrefix k "custom:")
                then "custom:" +:+ k else k in
       {| Name := Some k; Value := Some v |}) <$> range tfMap.

Definition expandUserAttributesDelete (input : list string) : list string :=
  (λ v, if negb (UserAttributeKeyMatchesStandardAttribute v)
           && negb (HasPrefix v "custom:")
        then "custom:" +:+ v else v) <$> input.

Definition flattenUserAttributes (apiList : list AttributeType) : attrs :=
  foldl (λ tfMap apiAttribute,
           match Name apiAttribute with
           | Some n =>
               if UserAttributeKeyMatchesStandardAttribute n
               then <[StringValue (Name apiAttribute) :=
                        StringValue (Value apiAttribute)]> tfMap
               else
                 let name :=
                   TrimPrefix
                     (TrimPrefix (StringValue (Name apiAttribute)) "dev:")
                     "custom:" in
                 <[name := StringValue (Value apiAttribute)]> tfMap
           | None => tfMap
           end) ∅ apiList.

(** What [computeUserAttributesUpdate] hands back, and the store it leaves. *)
Record AttributesUpdate := {
  upd : attrs;
  del : list string;
  store : heap
}.

(** The body of the loop over [newMap].  An entry that was removed from the
    map before the loop reached it is not produced. *)
Definition diffEntry (old new : loc) (st : attrs * heap) (k : string)
    : attrs * heap :=
  let '(upd, h) := st in
  match deref h new !! k with
  | None => st
  | Some v =>
      match deref h old !! k with
      | Some oldV =>
          (if bool_decide (oldV ≠ v) then <[k := v]> upd else upd,
           map_delete old k h)
      | None => (<[k := v]> upd, h)
      end
  end.

Definition computeUserAttributesUpdate `{MapRange} (h : heap) (old new : loc)
    : AttributesUpdate :=
  let '(upd, h') := foldl (diffEntry old new) (∅, h) (range (deref h new)).*1 in
  let del := (range (deref h' old)).*1 in
  {| upd := upd; del := del; store := h' |}.

(** *** The client *)

Module AdminCreateUserInput.
Record t := {
  ClientMetadata : option attrs;
  DesiredDeliveryMediums : list string;
  ForceAliasCreation : option bool;
  MessageAction : option string;
  TemporaryPassword : option string;
  UserAttributes : list AttributeType;
  UserPoolId : option string;
  Username : option string;
  ValidationData : list AttributeType
}.
End AdminCreateUserInput.

Module AdminGetUserOutput.
Record t := {
  Enabled : option bool;
  PreferredMfaSetting : option string;
  UserAttributes : list AttributeType;
  UserCreateDate : Z;
  UserLastModifiedDate : Z;
  UserMFASettingList : list string;
  UserStatus : option string;
  Username : option string
}.
End AdminGetUserOutput.

(** The remote operations, with their inputs. *)
Inductive Call :=
  | AdminCreateUser (params : AdminCreateUserInput.t)
  | AdminDisableUser (Username UserPoolId : string)
  | AdminEnableUser (Username UserPoolId : string)
  | AdminSetUserPassword (Username UserPoolId Password : string)
                         (Permanent : bool)
  | AdminUpdateUserAttributes (Username UserPoolId : string)
                              (UserAttributes : list AttributeType)
                              (ClientMetadata : option attrs)
  | AdminDeleteUserAttributes (Username UserPoolId : string)
                              (UserAttributeNames : list string)
  | AdminGetUser (Username UserPoolId : string)
  | AdminDeleteUser (Username UserPoolId : string).

(** [*cognitoidentityprovider.CognitoIdentityProvider]: each operation acts
    on the state of the service.  [AdminCreateUserWithContext] yields the
    error or [resp.User.Username]; [AdminGetUserWithContext] yields Go's
    pair of output and error; the others yield the error (nil on
    success). *)
Class Client := {
  Service : Type;
  AdminCreateUserWithContext :
    AdminCreateUserInput.t → Service → (error + option string) * Service;
  AdminDisableUserWithContext :
    string → string → Service → option error * Service;
  AdminEnableUserWithContext :
    string → string → Service → option error * Service;
  AdminSetUserPasswordWithContext :
    string → string → string → bool → Service → option error * Service;
  AdminUpdateUserAttributesWithContext :
    string → string → list AttributeType → option attrs →
    Service → option error * Service;
  AdminDeleteUserAttributesWithContext :
    string → string → list string → Service → option error * Service;
  AdminGetUserWithContext :
    string → string → Service →
    (option AdminGetUserOutput.t * option error) * Service;
  AdminDeleteUserWithContext :
    string → string → Service → option error * Service
}.

Definition ErrCodeUserNotFoundException := "UserNotFoundException".
Definition ErrCodeResourceNotFoundException := "ResourceNotFoundException".

(** Constants of the provider defined outside this file. *)
Definition names_CognitoIDP := "CognitoIDP".
Definition ErrActionReading := "reading".
Definition ResNameUser := "User".

(** *** Helpers *)

Definition expandUserDesiredDeliveryMediums (tfSet : gset string)
    : list string :=
  foldl (λ apiList elem, apiList ++ [elem]) [] (elements tfSet).

Definition retrieveUserSub (apiList : list AttributeType) : string :=
  match List.find (λ attr, String.eqb (StringValue (Name attr)) "sub") apiList
  with
  | Some attr => StringValue (Value attr)
  | None => ""
  end.

Definition expandUserClientMetadata `{MapRange} (tfMap : attrs) : attrs :=
  foldl (λ apiMap '(k, v), <[k := v]> apiMap) ∅ (range tfMap).

Definition errOf {A} (r : error + A) : option error :=
  match r with inl e => Some e | inr _ => None end.

Section handlers.
Context `{Provider} `{Client} `{MapRange}.

Abbreviation W := (World Service Call).

(** The two maps that [d.GetChange("attributes")] hands out are separate
    objects; [computeUserAttributesUpdate] runs on them. *)
Definition attributesChange (d : schema.ResourceData) : AttributesUpdate :=
  let '(old, new) := schema.GetChange "attributes" d in
  computeUserAttributesUpdate
    {[ 1%positive := schema.asMap old; 2%positive := schema.asMap new ]}
    1%positive 2%positive.

Definition FindUserByTwoPartKey (userPoolID username : string)
    : M W (error + AdminGetUserOutput.t) :=
  r <- remoteCall (AdminGetUser username userPoolID)
         (AdminGetUserWithContext username userPoolID) snd ;;
  let '(output, err) := r in
  if ErrCodeEquals err [ErrCodeUserNotFoundException;
                        ErrCodeResourceNotFoundException]
  then ret (inl (NotFoundError err))
  else
    match err with
    | Some e => ret (inl e)
    | None =>
        match output with
        | None => ret (inl EmptyResultError)
        | Some o => ret (inr o)
        end
    end.

Definition resourceUserRead : Handler W := func (
  let diags := [] in
  d <- getData ;;
  r <- FindUserByTwoPartKey (schema.asString (schema.Get "user_pool_id" d))
                            (schema.asString (schema.Get "username" d)) ;;
  if negb (schema.IsNewResource d) && NotFound (errOf r) then
    modifyData (schema.SetId "") >>
    return_ diags
  else
    match r with
    | inl err =>
        return_ (DiagError names_CognitoIDP ErrActionReading ResNameUser
                   (schema.asString (schema.Get "username" d)) err)
    | inr user =>
        (* [d.Set] of a value of the field's type returns no error: the two
           [if err := d.Set(...); err != nil] returns are not taken. *)
        modifyData (schema.Set_ "attributes"
          (Some (schema.VMap (flattenUserAttributes
                                (AdminGetUserOutput.UserAttributes user))))) >>
        modifyData (schema.Set_ "mfa_setting_list"
          (Some (schema.VSet (list_to_set
                                (AdminGetUserOutput.UserMFASettingList user))))) >>
        modifyData (schema.Set_ "preferred_mfa_setting"
          (schema.VString <$> AdminGetUserOutput.PreferredMfaSetting user)) >>
        modifyData (schema.Set_ "status"
          (schema.VString <$> AdminGetUserOutput.UserStatus user)) >>
        modifyData (schema.Set_ "enabled"
          (schema.VBool <$> AdminGetUserOutput.Enabled user)) >>
        modifyData (schema.Set_ "creation_date"
          (Some (schema.VString
                   (FormatRFC3339 (AdminGetUserOutput.UserCreateDate user))))) >>
        modifyData (schema.Set_ "last_modified_date"
          (Some (schema.VString
                   (FormatRFC3339
                      (AdminGetUserOutput.UserLastModifiedDate user))))) >>
        modifyData (schema.Set_ "sub"
          (Some (schema.VString
                   (retrieveUserSub (AdminGetUserOutput.UserAttributes user))))) >>
        return_ diags
    end).

Definition resourceUserCreate : Handler W := func (
  let diags := [] in
  d <- getData ;;
  let username := schema.asString (schema.Get "username" d) in
  let userPoolId := schema.asString (schema.Get "user_pool_id" d) in
  let params :=
    {| AdminCreateUserInput.Username := Some username;
       AdminCreateUserInput.UserPoolId := Some userPoolId;
       AdminCreateUserInput.ClientMetadata :=
         (let '(v, ok) := schema.GetOk "client_metadata" d in
          if ok then Some (expandUserClientMetadata (schema.asMap v))
          else None);
       AdminCreateUserInput.DesiredDeliveryMediums :=
         (let '(v, ok) := schema.GetOk "desired_delivery_mediums" d in
          if ok then expandUserDesiredDeliveryMediums (schema.asSet v)
          else []);
       AdminCreateUserInput.ForceAliasCreation :=
         (let '(v, ok) := schema.GetOk "force_alias_creation" d in
          if ok then Some (schema.asBool v) else None);
       AdminCreateUserInput.MessageAction :=
         (let '(v, ok) := schema.GetOk "message_action" d in
          if ok then Some (schema.asString v) else None);
       AdminCreateUserInput.UserAttributes :=
         (let '(v, ok) := schema.GetOk "attributes" d in
          if ok then expandAttribute (schema.asMap v) else []);
       AdminCreateUserInput.ValidationData :=
         (let '(v, ok) := schema.GetOk "validation_data" d in
          if ok then expandAttribute (schema.asMap v) else []);
       AdminCreateUserInput.TemporaryPassword :=
         (let '(v, ok) := schema.GetOk "temporary_password" d in
          if ok then Some (schema.asString v) else None) |} in
  r <- remoteCall (AdminCreateUser params)
         (AdminCreateUserWithContext params) errOf ;;
  match r with
  | inl err =>
      return_ (AppendErrorf diags
                 ("creating Cognito User (" +:+ userPoolId +:+ "/" +:+ username
                  +:+ "): " +:+ errorText err))
  | inr resp_User_Username =>
      modifyData (schema.SetId
                    (StringValue (AdminCreateUserInput.UserPoolId params)
                     +:+ "/" +:+ StringValue resp_User_Username)) >>
      d <- getData ;;
      (if negb (schema.asBool (schema.Get "enabled" d)) then
         err <- remoteCall
                  (AdminDisableUser (schema.asString (schema.Get "username" d))
                     (schema.asString (schema.Get "user_pool_id" d)))
                  (AdminDisableUserWithContext
                     (schema.asString (schema.Get "username" d))
                     (schema.asString (schema.Get "user_pool_id" d))) id ;;
         orReturn err (λ e,
           AppendErrorf diags ("disabling Cognito User (" +:+ schema.Id d
                               +:+ "): " +:+ errorText e))
       else ret tt) >>
      (let '(v, ok) := schema.GetOk "password" d in
       if ok then
         err <- remoteCall
                  (AdminSetUserPassword
                     (schema.asString (schema.Get "username" d))
                     (schema.asString (schema.Get "user_pool_id" d))
                     (schema.asString v) true)
                  (AdminSetUserPasswordWithContext
                     (schema.asString (schema.Get "username" d))
                     (schema.asString (schema.Get "user_pool_id" d))
                     (schema.asString v) true) id ;;
         orReturn err (λ e,
           AppendErrorf diags ("setting Cognito User's password ("
                               +:+ schema.Id d +:+ "): " +:+ errorText e))
       else ret tt) >>
      ds <- invoke resourceUserRead ;;
      return_ (diags ++ ds)
  end).

Definition resourceUserUpdate : Handler W := func (
  let diags := [] in
  d <- getData ;;
  (if schema.HasChange "attributes" d then
     let r := attributesChange d in
     (if bool_decide (0 < size (upd r)) then
        let params_ClientMetadata :=
          let '(v, ok) := schema.GetOk "client_metadata" d in
          if ok then Some (expandUserClientMetadata (schema.asMap v))
          else None in
        err <- remoteCall
                 (AdminUpdateUserAttributes
                    (schema.asString (schema.Get "username" d))
                    (schema.asString (schema.Get "user_pool_id" d))
                    (expandAttribute (upd r)) params_ClientMetadata)
                 (AdminUpdateUserAttributesWithContext
                    (schema.asString (schema.Get "username" d))
                    (schema.asString (schema.Get "user_pool_id" d))
                    (expandAttribute (upd r)) params_ClientMetadata) id ;;
        orReturn err (λ e,
          AppendErrorf diags ("updating Cognito User Attributes ("
                              +:+ schema.Id d +:+ "): " +:+ errorText e))
      else ret tt) >>
     (if bool_decide (0 < length (del r)) then
        err <- remoteCall
                 (AdminDeleteUserAttributes
                    (schema.asString (schema.Get "username" d))
                    (schema.asString (schema.Get "user_pool_id" d))
                    (expandUserAttributesDelete (del r)))
                 (AdminDeleteUserAttributesWithContext
                    (schema.asString (schema.Get "username" d))
                    (schema.asString (schema.Get "user_pool_id" d))
                    (expandUserAttributesDelete (del r))) id ;;
        orReturn err (λ e,
          AppendErrorf diags ("updating Cognito User Attributes ("
                              +:+ schema.Id d +:+ "): " +:+ errorText e))
      else ret tt)
   else ret tt) >>
  (if schema.HasChange "enabled" d then
     let enabled := schema.asBool (schema.Get "enabled" d) in
     if enabled then
       err <- remoteCall
                (AdminEnableUser (schema.asString (schema.Get "username" d))
                   (schema.asString (schema.Get "user_pool_id" d)))
                (AdminEnableUserWithContext
                   (schema.asString (schema.Get "username" d))
                   (schema.asString (schema.Get "user_pool_id" d))) id ;;
       orReturn err (λ e,
         AppendErrorf diags ("enabling Cognito User (" +:+ schema.Id d
                             +:+ "): " +:+ errorText e))
     else
       err <- remoteCall
                (AdminDisableUser (schema.asString (schema.Get "username" d))
                   (schema.asString (schema.Get "user_pool_id" d)))
                (AdminDisableUserWithContext
                   (schema.asString (schema.Get "username" d))
                   (schema.asString (schema.Get "user_pool_id" d))) id ;;
       orReturn err (λ e,
         AppendErrorf diags ("disabling Cognito User (" +:+ schema.Id d
                             +:+ "): " +:+ errorText e))
   else ret tt) >>
  (if schema.HasChange "temporary_password" d then
     let password := schema.asString (schema.Get "temporary_password" d) in
     if negb (String.eqb password "") then
       err <- remoteCall
                (AdminSetUserPassword
                   (schema.asString (schema.Get "username" d))
                   (schema.asString (schema.Get "user_pool_id" d))
                   password false)
                (AdminSetUserPasswordWithContext
                   (schema.asString (schema.Get "username" d))
                   (schema.asString (schema.Get "user_pool_id" d))
                   password false) id ;;
       orReturn err (λ e,
         AppendErrorf diags
           ("changing Cognito User's temporary password (" +:+ schema.Id d
            +:+ "): " +:+ errorText e))
     else modifyData (schema.Set_ "temporary_password" None)
   else ret tt) >>
  d <- getData ;;
  (if schema.HasChange "password" d then
     let password := schema.asString (schema.Get "password" d) in
     if negb (String.eqb password "") then
       err <- remoteCall
                (AdminSetUserPassword
                   (schema.asString (schema.Get "username" d))
                   (schema.asString (schema.Get "user_pool_id" d))
                   password true)
                (AdminSetUserPasswordWithContext
                   (schema.asString (schema.Get "username" d))
                   (schema.asString (schema.Get "user_pool_id" d))
                   password true) id ;;
       orReturn err (λ e,
         AppendErrorf diags ("changing Cognito User's password ("
                             +:+ schema.Id d +:+ "): " +:+ errorText e))
     else modifyData (schema.Set_ "password" None)
   else ret tt) >>
  ds <- invoke resourceUserRead ;;
  return_ (diags ++ ds)).

Definition resourceUserDelete : Handler W := func (
  let diags := [] in
  d <- getData ;;
  err <- remoteCall
           (AdminDeleteUser (schema.asString (schema.Get "username" d))
              (schema.asString (schema.Get "user_pool_id" d)))
           (AdminDeleteUserWithContext
              (schema.asString (schema.Get "username" d))
              (schema.asString (schema.Get "user_pool_id" d))) id ;;
  orReturn err (λ e,
    AppendErrorf diags ("deleting Cognito User (" +:+ schema.Id d +:+ "): "
                        +:+ errorText e)) >>
  return_ diags).

Definition resourceUserImport : Importer := λ d,
  let idSplit := Split (schema.Id d) "/" in
  match idSplit with
  | [userPoolId; name] =>
      let d := schema.Set_ "user_pool_id" (Some (schema.VString userPoolId)) d in
      let d := schema.Set_ "username" (Some (schema.VString name)) d in
      ([d], None, d)
  | _ =>
      ([], Some (errorString
                   "error importing Cognito User. Must specify user_pool_id/username"),
       d)
  end.

Definition ResourceUser : Resource W :=
  {| CreateWithoutTimeout := resourceUserCreate;
     ReadWithoutTimeout := resourceUserRead;
     UpdateWithoutTimeout := resourceUserUpdate;
     DeleteWithoutTimeout := resourceUserDelete;
     StateContext := resourceUserImport |}.

End handlers.

End cognitoidp.

Module networkmanager.

Record CoreNetwork := {
  CoreNetworkId : option string;
  State : option string
}.

(** The remote operations, with their inputs. *)
Inductive Call :=
  | GetCoreNetwork (id : string)
  | GetCoreNetworkPolicy (id : string)
  | PutCoreNetworkPolicy (id policyDocument : string)
  | WaitCoreNetworkUpdated (id : string) (timeout : Z).

(** The functions of the package that talk to the service and are defined
    in its other files, taken as parameters acting on the state of the
    service: each yields its error (nil on success) and, for the two
    finders, the object found.  [EncodeJSONValue] is the SDK's encoder of
    the policy document, which can fail. *)
Class Client := {
  Service : Type;
  JSONValue : Type;
  FindCoreNetworkByID : string → Service → (error + CoreNetwork) * Service;
  FindCoreNetworkPolicyByID : string → Service → (error + JSONValue) * Service;
  PutAndExecuteCoreNetworkPolicy :
    string → string → Service → option error * Service;
  waitCoreNetworkUpdated : string → Z → Service → option error * Service;
  EncodeJSONValue : JSONValue → error + string
}.

Definition errOf {A} (r : error + A) : option error :=
  match r with inl e => Some e | inr _ => None end.

Section handlers.
Context `{Provider} `{Client}.

Abbreviation W := (World Service Call).

Definition resourceCoreNetworkPolicyAttachmentRead : Handler W := func (
  d <- getData ;;
  r <- remoteCall (GetCoreNetwork (schema.Id d))
         (FindCoreNetworkByID (schema.Id d)) errOf ;;
  if negb (schema.IsNewResource d) && NotFound (errOf r) then
    modifyData (schema.SetId "") >>
    return_ []
  else
    match r with
    | inl err =>
        return_ (diag.Errorf ("reading Network Manager Core Network ("
                              +:+ schema.Id d +:+ "): " +:+ errorText err))
    | inr coreNetwork =>
        modifyData (schema.Set_ "core_network_id"
                      (schema.VString <$> CoreNetworkId coreNetwork)) >>
        modifyData (schema.Set_ "state"
                      (schema.VString <$> State coreNetwork)) >>
        r <- remoteCall (GetCoreNetworkPolicy (schema.Id d))
               (FindCoreNetworkPolicyByID (schema.Id d)) errOf ;;
        if NotFound (errOf r) then
          modifyData (schema.Set_ "policy_document" None) >>
          return_ []
        else
          match r with
          | inl err =>
              return_ (diag.Errorf
                         ("reading Network Manager Core Network ("
                          +:+ schema.Id d +:+ ") policy: " +:+ errorText err))
          | inr coreNetworkPolicy_PolicyDocument =>
              match EncodeJSONValue coreNetworkPolicy_PolicyDocument with
              | inl err =>
                  return_ (diag.Errorf
                             ("encoding Network Manager Core Network ("
                              +:+ schema.Id d +:+ ") policy document: "
                              +:+ errorText err))
              | inr encodedPolicyDocument =>
                  modifyData (schema.Set_ "policy_document"
                                (Some (schema.VString encodedPolicyDocument))) >>
                  return_ []
              end
          end
    end).

Definition resourceCoreNetworkPolicyAttachmentUpdate : Handler W := func (
  d <- getData ;;
  (if schema.HasChange "policy_document" d then
     err <- remoteCall
              (PutCoreNetworkPolicy (schema.Id d)
                 (schema.asString (schema.Get "policy_document" d)))
              (PutAndExecuteCoreNetworkPolicy (schema.Id d)
                 (schema.asString (schema.Get "policy_document" d))) id ;;
     orReturn err (λ e, diag.FromErr (Some e)) >>
     err <- remoteCall
              (WaitCoreNetworkUpdated (schema.Id d) (schema.TimeoutUpdate d))
              (waitCoreNetworkUpdated (schema.Id d) (schema.TimeoutUpdate d))
              id ;;
     orReturn err (λ e,
       diag.Errorf ("waiting for Network Manager Core Network ("
                    +:+ schema.Id d +:+ ") update: " +:+ errorText e))
   else ret tt) >>
  ds <- invoke resourceCoreNetworkPolicyAttachmentRead ;;
  return_ ds).

Definition resourceCoreNetworkPolicyAttachmentCreate : Handler W := func (
  d <- getData ;;
  modifyData (schema.SetId (schema.asString (schema.Get "core_network_id" d))) >>
  ds <- invoke resourceCoreNetworkPolicyAttachmentUpdate ;;
  return_ ds).

Definition ResourceCoreNetworkPolicyAttachment : Resource W :=
  {| CreateWithoutTimeout := resourceCoreNetworkPolicyAttachmentCreate;
     ReadWithoutTimeout := resourceCoreNetworkPolicyAttachmentRead;
     UpdateWithoutTimeout := resourceCoreNetworkPolicyAttachmentUpdate;
     DeleteWithoutTimeout := NoopContext;
     StateContext := ImportStatePassthroughContext |}.

End handlers.

End networkmanager.

(** * Vocabulary of the specification *)

(** [strings.Join] for a one-byte separator, the inverse of [Split]. *)
Fixpoint Join (parts : list string) (sep : ascii) : string :=
  match parts with
  | [] => ""
  | [p] => p
  | p :: ps => p +:+ String sep (Join ps sep)
  end.

(** A map without the keys [seen]. *)
Definition without (seen : list string) (m : attrs) : attrs :=
  filter (λ kv, kv.1 ∉ seen) m.

(** The remote calls issued so far, oldest first. *)
Definition calls {R C} (w : World R C) : list C := (log w).*1.

(** How many of the calls issued so far satisfy [p]. *)
Definition countCalls {R C} (p : C → bool) (w : World R C) : nat :=
  length (List.filter p (calls w)).



(** Weakest precondition of a statement sequence: [Q] for the paths that go
    on, [E] for the paths that return. *)
Definition wp {W A} (m : M W A) (Q : A → W → Prop)
    (E : diag.Diagnostics → W → Prop) (w : W) : Prop :=
  match m w with
  | (inl a, w') => Q a w'
  | (inr ds, w') => E ds w'
  end.

Section user_vocabulary.
Import cognitoidp.
Context `{!Provider}.

(** What [FindUserByTwoPartKey] makes of the pair that [AdminGetUser]
    returned. *)
Definition lookupResult (output : option AdminGetUserOutput.t)
    (err : option error) : error + AdminGetUserOutput.t :=
  if ErrCodeEquals err [ErrCodeUserNotFoundException;
                        ErrCodeResourceNotFoundException]
  then inl (NotFoundError err)
  else match err, output with
       | Some e, _ => inl e
       | None, None => inl EmptyResultError
       | None, Some o => inr o
       end.


(** The resource data after a successful read of [user]. *)
Definition refreshed (user : AdminGetUserOutput.t) (d : schema.ResourceData)
    : schema.ResourceData :=
  schema.Set_ "sub"
    (Some (schema.VString
             (retrieveUserSub (AdminGetUserOutput.UserAttributes user))))
  (schema.Set_ "last_modified_date"
    (Some (schema.VString
             (FormatRFC3339 (AdminGetUserOutput.UserLastModifiedDate user))))
  (schema.Set_ "creation_date"
    (Some (schema.VString
             (FormatRFC3339 (AdminGetUserOutput.UserCreateDate user))))
  (schema.Set_ "enabled" (schema.VBool <$> AdminGetUserOutput.Enabled user)
  (schema.Set_ "status" (schema.VString <$> AdminGetUserOutput.UserStatus user)
  (schema.Set_ "preferred_mfa_setting"
    (schema.VString <$> AdminGetUserOutput.PreferredMfaSetting user)
  (schema.Set_ "mfa_setting_list"
    (Some (schema.VSet
             (list_to_set (AdminGetUserOutput.UserMFASettingList user))))
  (schema.Set_ "attributes"
    (Some (schema.VMap (flattenUserAttributes
                          (AdminGetUserOutput.UserAttributes user)))) d))))))).

Definition isAdminUpdateUserAttributes (c : Call) : bool :=
  match c with AdminUpdateUserAttributes _ _ _ _ => true | _ => false end.

Definition isAdminDeleteUserAttributes (c : Call) : bool :=
  match c with AdminDeleteUserAttributes _ _ _ => true | _ => false end.

Definition isEnableDisable (c : Call) : bool :=
  match c with
  | AdminEnableUser _ _ | AdminDisableUser _ _ => true
  | _ => false
  end.

Definition isAdminGetUser (c : Call) : bool :=
  match c with AdminGetUser _ _ => true | _ => false end.

End user_vocabulary.

Section failure_vocabulary.
Import cognitoidp.
Context `{!Provider, !Client}.








End failure_vocabulary.

(** * Concrete inputs *)

(** A provider whose [tfresource.NotFound] recognises [NotFoundError] and
    an empty result. *)
Definition exampleProvider : Provider :=
  {| isNotFound := λ e, match e with
                        | NotFoundError _ | EmptyResultError => true
                        | _ => false
                        end;
     FormatRFC3339 := λ _, "1970-01-01T00:00:00Z" |}.

Definition internalError : error :=
  awsError "InternalErrorException" "internal error".

Definition alice : cognitoidp.AdminGetUserOutput.t :=
  {| cognitoidp.AdminGetUserOutput.Enabled := Some true;
     cognitoidp.AdminGetUserOutput.PreferredMfaSetting := None;
     cognitoidp.AdminGetUserOutput.UserAttributes :=
       [ {| cognitoidp.Name := Some "sub"; cognitoidp.Value := Some "1234" |};
         {| cognitoidp.Name := Some "custom:team";
            cognitoidp.Value := Some "core" |} ];
     cognitoidp.AdminGetUserOutput.UserCreateDate := 0;
     cognitoidp.AdminGetUserOutput.UserLastModifiedDate := 0;
     cognitoidp.AdminGetUserOutput.UserMFASettingList := [];
     cognitoidp.AdminGetUserOutput.UserStatus := Some "CONFIRMED";
     cognitoidp.AdminGetUserOutput.Username := Some "alice" |}.

(** What a scripted Cognito service answers to each operation. *)
Record Script := {
  onCreate : error + option string;
  onDisable : option error;
  onEnable : option error;
  onSetPassword : option error;
  onUpdateAttributes : option error;
  onDeleteAttributes : option error;
  onGetUser : option cognitoidp.AdminGetUserOutput.t * option error;
  onDeleteUser : option error
}.

(** The scripted service; its state counts the requests served. *)
Definition scripted (s : Script) : cognitoidp.Client :=
  {| cognitoidp.Service := nat;
     cognitoidp.AdminCreateUserWithContext := λ _ n, (onCreate s, S n);
     cognitoidp.AdminDisableUserWithContext := λ _ _ n, (onDisable s, S n);
     cognitoidp.AdminEnableUserWithContext := λ _ _ n, (onEnable s, S n);
     cognitoidp.AdminSetUserPasswordWithContext :=
       λ _ _ _ _ n, (onSetPassword s, S n);
     cognitoidp.AdminUpdateUserAttributesWithContext :=
       λ _ _ _ _ n, (onUpdateAttributes s, S n);
     cognitoidp.AdminDeleteUserAttributesWithContext :=
       λ _ _ _ n, (onDeleteAttributes s, S n);
     cognitoidp.AdminGetUserWithContext := λ _ _ n, (onGetUser s, S n);
     cognitoidp.AdminDeleteUserWithContext := λ _ _ n, (onDeleteUser s, S n) |}.

Definition allSucceed : Script :=
  {| onCreate := inr (Some "alice"); onDisable := None; onEnable := None;
     onSetPassword := None; onUpdateAttributes := None;
     onDeleteAttributes := None; onGetUser := (Some alice, None);
     onDeleteUser := None |}.


Definition disableFails : Script :=
  {| onCreate := inr (Some "alice"); onDisable := Some internalError;
     onEnable := None; onSetPassword := None; onUpdateAttributes := None;
     onDeleteAttributes := None; onGetUser := (Some alice, None);
     onDeleteUser := None |}.

Definition userGone : Script :=
  {| onCreate := inr (Some "alice"); onDisable := None; onEnable := None;
     onSetPassword := None; onUpdateAttributes := None;
     onDeleteAttributes := None;
     onGetUser := (None, Some (awsError "UserNotFoundException" "no such user"));
     onDeleteUser := None |}.

(** A user to be created disabled. *)
Definition disabledUserConfig : gmap string schema.value :=
  {[ "username" := schema.VString "alice";
     "user_pool_id" := schema.VString "us-east-1_pool";
     "enabled" := schema.VBool false ]}.

Definition toCreate : schema.ResourceData :=
  {| schema.Id := ""; schema.IsNewResource := true; schema.TimeoutUpdate := 0;
     schema.prior := ∅; schema.planned := disabledUserConfig;
     schema.current := disabledUserConfig |}.

(** An existing, enabled user whose nickname changes from a to b and who
    gets a locale. *)
Definition aliceBefore : gmap string schema.value :=
  {[ "username" := schema.VString "alice";
     "user_pool_id" := schema.VString "us-east-1_pool";
     "enabled" := schema.VBool true;
     "attributes" := schema.VMap {[ "nickname" := "a" ]} ]}.

Definition aliceAfter : gmap string schema.value :=
  {[ "username" := schema.VString "alice";
     "user_pool_id" := schema.VString "us-east-1_pool";
     "enabled" := schema.VBool true;
     "attributes" := schema.VMap {[ "nickname" := "b"; "locale" := "en" ]} ]}.

Definition toUpdate : schema.ResourceData :=
  {| schema.Id := "us-east-1_pool/alice"; schema.IsNewResource := false;
     schema.TimeoutUpdate := 0;
     schema.prior := aliceBefore; schema.planned := aliceAfter;
     schema.current := aliceAfter |}.

(** An update that changes nothing. *)
Definition unchanged : schema.ResourceData :=
  {| schema.Id := "us-east-1_pool/alice"; schema.IsNewResource := false;
     schema.TimeoutUpdate := 0;
     schema.prior := aliceBefore; schema.planned := aliceBefore;
     schema.current := aliceBefore |}.

(** The two maps of the example of the specification, as separate objects. *)
Definition nicknameStore : heap :=
  {[ 1%positive := {[ "nickname" := "a" ]};
     2%positive := {[ "nickname" := "b"; "locale" := "en" ]} ]}.

(** A core network whose policy document cannot be found. *)
Definition policyMissing : networkmanager.Client :=
  {| networkmanager.Service := nat;
     networkmanager.JSONValue := string;
     networkmanager.FindCoreNetworkByID := λ id n,
       (inr {| networkmanager.CoreNetworkId := Some id;
               networkmanager.State := Some "AVAILABLE" |}, S n);
     networkmanager.FindCoreNetworkPolicyByID := λ _ n,
       (inl (NotFoundError None), S n);
     networkmanager.PutAndExecuteCoreNetworkPolicy := λ _ _ n, (None, S n);
     networkmanager.waitCoreNetworkUpdated := λ _ _ n, (None, S n);
     networkmanager.EncodeJSONValue := inr |}.

(** A core network that cannot be found. *)
Definition networkMissing : networkmanager.Client :=
  {| networkmanager.Service := nat;
     networkmanager.JSONValue := string;
     networkmanager.FindCoreNetworkByID := λ _ n,
       (inl (NotFoundError None), S n);
     networkmanager.FindCoreNetworkPolicyByID := λ _ n,
       (inl (NotFoundError None), S n);
     networkmanager.PutAndExecuteCoreNetworkPolicy := λ _ _ n, (None, S n);
     networkmanager.waitCoreNetworkUpdated := λ _ _ n, (None, S n);
     networkmanager.EncodeJSONValue := inr |}.

Definition attachmentState : gmap string schema.value :=
  {[ "core_network_id" := schema.VString "core-network-0123456789abcdef0";
     "policy_document" := schema.VString "{}";
     "state" := schema.VString "AVAILABLE" ]}.

Definition attachment : schema.ResourceData :=
  {| schema.Id := "core-network-0123456789abcdef0";
     schema.IsNewResource := false; schema.TimeoutUpdate := 1800;
     schema.prior := attachmentState; schema.planned := attachmentState;
     schema.current := attachmentState |}.

(** * Further vocabulary *)

Section names_vocabulary.
Import cognitoidp.

(** The name under which [expandAttribute] and [expandUserAttributesDelete]
    send the attribute key [k]. *)
Definition wireName (k : string) : string :=
  if negb (UserAttributeKeyMatchesStandardAttribute k)
     && negb (HasPrefix k "custom:")
  then "custom:" +:+ k else k.

(** A name the service accepts: a standard attribute or a [custom:] one. *)
Definition wellFormedName (n : string) : Prop :=
  UserAttributeKeyMatchesStandardAttribute n = true
  ∨ HasPrefix n "custom:" = true.

End names_vocabulary.

(** Two resource data that agree on everything the handlers do not write:
    the prior state, the plan, the flags, and every attribute outside
    [keys].  The ID is not compared. *)
Definition sameExcept (keys : list string) (d d' : schema.ResourceData)
    : Prop :=
  schema.IsNewResource d' = schema.IsNewResource d
  ∧ schema.TimeoutUpdate d' = schema.TimeoutUpdate d
  ∧ schema.prior d' = schema.prior d
  ∧ schema.planned d' = schema.planned d
  ∧ ∀ k, k ∉ keys → schema.Get k d' = schema.Get k d.

(** The attributes that [resourceUserRead] sets. *)
Definition readKeys : list string :=
  [ "attributes"; "mfa_setting_list"; "preferred_mfa_setting"; "status";
    "enabled"; "creation_date"; "last_modified_date"; "sub" ].

(** The attributes that [resourceCoreNetworkPolicyAttachmentRead] sets. *)
Definition attachmentReadKeys : list string :=
  [ "core_network_id"; "state"; "policy_document" ].

Section calls_vocabulary.
Import cognitoidp.

(** The user and the pool that a call addresses. *)
Definition callTarget (c : Call) : string * string :=
  match c with
  | AdminCreateUser params =>
      (StringValue (AdminCreateUserInput.Username params),
       StringValue (AdminCreateUserInput.UserPoolId params))
  | AdminDisableUser u p | AdminEnableUser u p | AdminSetUserPassword u p _ _
  | AdminUpdateUserAttributes u p _ _ | AdminDeleteUserAttributes u p _
  | AdminGetUser u p | AdminDeleteUser u p => (u, p)
  end.

(** The user and the pool that the resource data names. *)
Definition configuredTarget (d : schema.ResourceData) : string * string :=
  (schema.asString (schema.Get "username" d),
   schema.asString (schema.Get "user_pool_id" d)).

(** What can be said of a call that [resourceUserCreate] issues when
    started with [d]. *)
Definition createCall (d : schema.ResourceData) (c : Call) : Prop :=
  callTarget c = configuredTarget d
  ∧ match c with
    | AdminCreateUser _ | AdminGetUser _ _ => True
    | AdminDisableUser _ _ =>
        schema.asBool (schema.Get "enabled" d) = false
    | AdminSetUserPassword _ _ password permanent =>
        permanent = true
        ∧ password = schema.asString (schema.Get "password" d)
        ∧ schema.isZero (schema.Get "password" d) = false
    | _ => False
    end.

(** What can be said of a call that [resourceUserUpdate] issues when
    started with [d]. *)
Definition updateCall `{!MapRange} (d : schema.ResourceData) (c : Call)
    : Prop :=
  callTarget c = configuredTarget d
  ∧ match c with
    | AdminUpdateUserAttributes _ _ attributes _ =>
        attributes = expandAttribute (upd (attributesChange d))
        ∧ 0 < size (upd (attributesChange d))
    | AdminDeleteUserAttributes _ _ names =>
        names = expandUserAttributesDelete (del (attributesChange d))
        ∧ 0 < length (del (attributesChange d))
    | AdminEnableUser _ _ =>
        schema.HasChange "enabled" d = true
        ∧ schema.asBool (schema.Get "enabled" d) = true
    | AdminDisableUser _ _ =>
        schema.HasChange "enabled" d = true
        ∧ schema.asBool (schema.Get "enabled" d) = false
    | AdminSetUserPassword _ _ password permanent =>
        password ≠ ""
        ∧ password
          = schema.asString
              (schema.Get (if permanent then "password"
                           else "temporary_password") d)
    | AdminGetUser _ _ => True
    | AdminCreateUser _ | AdminDeleteUser _ _ => False
    end.

End calls_vocabulary.

Section attachment_vocabulary.
Import networkmanager.

Definition isPutOrWait (c : Call) : bool :=
  match c with
  | PutCoreNetworkPolicy _ _ | WaitCoreNetworkUpdated _ _ => true
  | _ => false
  end.

(** The core network that a call addresses. *)
Definition callNetwork (c : Call) : string :=
  match c with
  | GetCoreNetwork id | GetCoreNetworkPolicy id | PutCoreNetworkPolicy id _
  | WaitCoreNetworkUpdated id _ => id
  end.

End attachment_vocabulary.

(** The validators of [core_network_id] in the schema of the attachment:
    [validation.StringLenBetween(0, 50)] and [validation.StringMatch] with
    the pattern [^core-network-([0-9a-f]{8,17})$]. *)
Definition StringLenBetween (min max : nat) (s : string) : bool :=
  (min <=? String.length s)%nat && (String.length s <=? max)%nat.

Definition isLowerHex (c : ascii) : bool :=
  let n := nat_of_ascii c in
  ((48 <=? n) && (n <=? 57) || (97 <=? n) && (n <=? 102))%nat.

Fixpoint allChars (p : ascii → bool) (s : string) : bool :=
  match s with
  | EmptyString => true
  | String c s' => p c && allChars p s'
  end.

Definition matchesCoreNetworkID (s : string) : bool :=
  HasPrefix s "core-network-"
  && (let digits := string_skip 13 s in
      (8 <=? String.length digits)%nat && (String.length digits <=? 17)%nat
      && allChars isLowerHex digits).

(** An attachment being created. *)
Definition newAttachment : schema.ResourceData :=
  {| schema.Id := ""; schema.IsNewResource := true;
     schema.TimeoutUpdate := 1800;
     schema.prior := ∅; schema.planned := attachmentState;
     schema.current := attachmentState |}.

(** A core network whose policy cannot be put. *)
Definition putFails : networkmanager.Client :=
  {| networkmanager.Service := nat;
     networkmanager.JSONValue := string;
     networkmanager.FindCoreNetworkByID := λ id n,
       (inr {| networkmanager.CoreNetworkId := Some id;
               networkmanager.State := Some "AVAILABLE" |}, S n);
     networkmanager.FindCoreNetworkPolicyByID := λ _ n, (inr "{}", S n);
     networkmanager.PutAndExecuteCoreNetworkPolicy := λ _ _ n,
       (Some internalError, S n);
     networkmanager.waitCoreNetworkUpdated := λ _ _ n, (None, S n);
     networkmanager.EncodeJSONValue := inr |}.

(** An attachment whose policy document is to change. *)
Definition attachmentChanged : schema.ResourceData :=
  {| schema.Id := "core-network-0123456789abcdef0";
     schema.IsNewResource := false; schema.TimeoutUpdate := 1800;
     schema.prior := attachmentState;
     schema.planned :=
       <[ "policy_document" := schema.VString "{ }" ]>
         attachmentState;
     schema.current :=
       <[ "policy_document" := schema.VString "{ }" ]>
         attachmentState |}.

(** * Proof tools *)

Ltac unfold_monad :=
  unfold orReturn, wp, func, bind, ret, return_, getData, modifyData,
    remoteCall, invoke in *.

(** * Properties *)

(** ** Strings *)

Lemma Split_nonempty s sep : Split s sep ≠ [].
Proof. induction s as [|c s IH]; simpl; [done|]. case_match; [done|]. by case_match. Qed.

Lemma Split_length s sep : length (Split s sep) = S (Count s sep).
Proof.
  induction s as [|c s IH]; simpl; [done|].
  destruct (Ascii.eqb c sep); simpl; [by rewrite IH|].
  destruct (Split s sep) eqn:E; simpl in *; [done|]. lia.
Qed.

Lemma Split_no_sep s sep : Count s sep = 0 → Split s sep = [s].
Proof.
  induction s as [|c s IH]; simpl; [done|].
  destruct (Ascii.eqb c sep); [done|]. intros Hc. by rewrite IH.
Qed.

Lemma Split_app s t sep :
  Count s sep = 0 → Split (s +:+ String sep t) sep = s :: Split t sep.
Proof.
  induction s as [|c s IH]; simpl.
  - intros _. by rewrite Ascii.eqb_refl.
  - destruct (Ascii.eqb c sep); [done|]. intros Hc. by rewrite IH.
Qed.

(** Joining the parts with the separator gives the string back, and no part
    contains the separator: [Split] is the split of Go's library. *)
Lemma Join_String c p ps sep :
  Join (String c p :: ps) sep = String c (Join (p :: ps) sep).
Proof. by destruct ps. Qed.

Lemma Join_Split s sep : Join (Split s sep) sep = s.
Proof.
  induction s as [|c s IH]; [done|]. cbn [Split].
  destruct (Ascii.eqb c sep) eqn:E.
  - apply Ascii.eqb_eq in E as ->.
    destruct (Split s sep) eqn:Es; [by apply Split_nonempty in Es|].
    change (Join ("" :: s0 :: l) sep) with (String sep (Join (s0 :: l) sep)).
    by rewrite IH.
  - destruct (Split s sep) as [|p ps] eqn:Es; [by apply Split_nonempty in Es|].
    by rewrite Join_String, IH.
Qed.

Lemma Split_parts s sep : Forall (λ p, Count p sep = 0) (Split s sep).
Proof.
  induction s as [|c s IH]; simpl; [by constructor|].
  destruct (Ascii.eqb c sep) eqn:E; [by constructor|].
  destruct (Split s sep) as [|p ps]; [by repeat constructor; simpl; rewrite E|].
  apply Forall_cons in IH as [Hp Hps]. constructor; [|done].
  simpl. by rewrite E.
Qed.

(** ** Attribute reconciliation *)

Section reconciliation.
Import cognitoidp.
Context `{!MapRange}.

Lemma range_keys_NoDup (m : attrs) : NoDup (range m).*1.
Proof.
  rewrite (range_perm m). apply NoDup_fst_map_to_list.
Qed.

Lemma elem_of_range_keys (m : attrs) (k : string) :
  k ∈ (range m).*1 ↔ is_Some (m !! k).
Proof.
  rewrite (range_perm m). split.
  - intros [[k' v] [-> Hin]]%list_elem_of_fmap.
    apply elem_of_map_to_list in Hin. eauto.
  - intros [v Hv]. apply list_elem_of_fmap. exists (k, v).
    split; [done | by apply elem_of_map_to_list].
Qed.

Lemma lookup_without seen (m : attrs) k :
  without seen m !! k = if decide (k ∈ seen) then None else m !! k.
Proof.
  unfold without. rewrite map_lookup_filter.
  destruct (m !! k) as [v|] eqn:E; simpl; [|by case_decide].
  case_guard; case_decide; simpl in *; done.
Qed.

Lemma deref_alter_eq (f : attrs → attrs) (h : heap) (l : loc) :
  f ∅ = ∅ → deref (alter f l h) l = f (deref h l).
Proof.
  intros Hf. unfold deref. rewrite lookup_alter_eq.
  destruct (h !! l); simpl; done.
Qed.

Lemma deref_alter_ne (f : attrs → attrs) (h : heap) (l l' : loc) :
  l ≠ l' → deref (alter f l h) l' = deref h l'.
Proof. intros Hne. unfold deref. by rewrite lookup_alter_ne. Qed.

Lemma without_empty seen : without seen ∅ = ∅.
Proof. apply map_eq; intros k. rewrite lookup_without. by case_decide. Qed.

Lemma deref_without_old h old seen k :
  k ∉ seen →
  deref (alter (without seen) old h) old !! k = deref h old !! k.
Proof.
  intros Hk. rewrite deref_alter_eq by apply without_empty.
  rewrite lookup_without. by case_decide.
Qed.

Lemma deref_without_new h old new seen k :
  k ∉ seen →
  deref (alter (without seen) old h) new !! k = deref h new !! k.
Proof.
  intros Hk. destruct (decide (old = new)) as [->|Hne].
  - by apply deref_without_old.
  - by rewrite deref_alter_ne.
Qed.

(** The loop over [newMap], started after the keys [seen]: it takes the
    remaining keys that [old] has out of [old] and records in [upd] those
    whose value is new or differs. *)
Lemma diff_loop (h : heap) (old new : loc) (rest seen : list string)
    (U : attrs) :
  NoDup rest →
  (∀ k, k ∈ rest → (k ∉ seen) ∧ is_Some (deref h new !! k)) →
  ∃ U',
    foldl (diffEntry old new) (U, alter (without seen) old h) rest
    = (U', alter (without (rest ++ seen)) old h)
    ∧ ∀ k, U' !! k =
           if decide (k ∈ rest) then
             match deref h new !! k with
             | Some v =>
                 if decide (deref h old !! k = Some v) then U !! k else Some v
             | None => U !! k
             end
           else U !! k.
Proof.
  revert seen U. induction rest as [|k rest IH]; intros seen U Hnd Hin.
  { exists U. split; [done|]. intros k.
    by rewrite decide_False by apply not_elem_of_nil. }
  apply NoDup_cons in Hnd as [Hk Hnd].
  destruct (Hin k) as [Hkd [v Hv]]; [by left|].
  assert (Hstep : ∃ U1,
    diffEntry old new (U, alter (without seen) old h) k
    = (U1, alter (without (k :: seen)) old h)
    ∧ ∀ j, U1 !! j =
           if decide (j = k)
           then if decide (deref h old !! k = Some v) then U !! k else Some v
           else U !! j).
  { unfold diffEntry.
    rewrite deref_without_new, deref_without_old, Hv by done.
    destruct (deref h old !! k) as [oldV|] eqn:Ho.
    - eexists. split.
      + f_equal. unfold map_delete. rewrite alter_alter_eq.
        apply alter_ext. intros m _. apply map_eq. intros j. simpl.
        rewrite lookup_delete, !lookup_without.
        destruct (decide (k = j)) as [->|]; repeat case_decide;
          set_unfold; intuition congruence.
      + intros j. case_bool_decide; repeat case_decide; simplify_eq;
          rewrite ?lookup_insert_eq, ?lookup_insert_ne by done; done.
    - eexists. split.
      + f_equal. apply alter_ext. intros m Hm. apply map_eq. intros j.
        rewrite !lookup_without.
        assert (deref h old = m) as <- by (unfold deref; by rewrite Hm).
        destruct (decide (k = j)) as [->|]; repeat case_decide;
          set_unfold; intuition congruence.
      + intros j. repeat case_decide; simplify_eq;
          rewrite ?lookup_insert_eq, ?lookup_insert_ne by done; done. }
  destruct Hstep as (U1 & HU1 & HU1l). cbn [foldl]. rewrite HU1.
  destruct (IH (k :: seen) U1 Hnd) as (U' & HU' & HU'l).
  { intros j Hj. split; [|apply Hin; by right].
    intros [->|Hjd]%elem_of_cons; [done|].
    destruct (Hin j) as [Hj' _]; [by right | done]. }
  exists U'. split.
  { rewrite HU'. f_equal. apply alter_ext. intros m _. apply map_eq. intros j.
    rewrite !lookup_without. repeat case_decide; set_unfold; intuition congruence. }
  intros j. rewrite HU'l, !HU1l.
  destruct (decide (j = k)) as [->|Hjk].
  - rewrite (decide_False (P := k ∈ rest)) by done.
    rewrite (decide_True (P := k ∈ k :: rest)) by left.
    by rewrite Hv.
  - destruct (decide (j ∈ rest)) as [Hj|Hj].
    + rewrite (decide_True (P := j ∈ k :: rest)) by (by right).
      destruct (deref h new !! j); [|done]. by case_decide.
    + rewrite (decide_False (P := j ∈ k :: rest)); [done|].
      intros [?|?]%elem_of_cons; done.
Qed.

(** What [computeUserAttributesUpdate] returns and leaves behind, for every
    store and every pair of references, aliased or not. *)
Lemma computeUserAttributesUpdate_spec (h : heap) (old new : loc) :
  let r := computeUserAttributesUpdate h old new in
  (∀ k, upd r !! k =
        match deref h new !! k with
        | Some v => if decide (deref h old !! k = Some v) then None else Some v
        | None => None
        end)
  ∧ del r ≡ₚ (map_to_list (deref h old ∖ deref h new)).*1
  ∧ store r = alter (λ m, m ∖ deref h new) old h.
Proof.
  unfold computeUserAttributesUpdate.
  destruct (diff_loop h old new (range (deref h new)).*1 [] ∅)
    as (U' & Hloop & HU').
  { apply range_keys_NoDup. }
  { intros k Hk. split; [apply not_elem_of_nil|]. by apply elem_of_range_keys. }
  assert (Hstart : alter (without []) old h = h).
  { rewrite <-(alter_id id h old) at 2 by done. apply alter_ext.
    intros m _. apply map_eq. intros j. rewrite lookup_without.
    case_decide as Hj; [by apply elem_of_nil in Hj | done]. }
  rewrite Hstart in Hloop. rewrite Hloop. simpl.
  assert (Hend : alter (without ((range (deref h new)).*1 ++ [])) old h
                 = alter (λ m, m ∖ deref h new) old h).
  { apply alter_ext. intros m _. apply map_eq. intros j.
    rewrite lookup_without, lookup_difference, app_nil_r.
    case_decide as Hj; rewrite elem_of_range_keys in Hj.
    - by destruct Hj as [? ->].
    - destruct (deref h new !! j); [|done]. exfalso; eauto. }
  split; [|split].
  - intros k. rewrite HU'. rewrite lookup_empty.
    case_decide as Hk; [done|]. rewrite elem_of_range_keys in Hk.
    destruct (deref h new !! k); [|done]. exfalso; eauto.
  - rewrite Hend. rewrite deref_alter_eq.
    + by rewrite (range_perm _).
    + apply map_eq. intros j. rewrite lookup_difference, lookup_empty.
      by destruct (_ !! j).
  - done.
Qed.


(** C1.  For every pair of attribute maps (previous, desired), in whatever
    order the maps are ranged over, [computeUserAttributesUpdate] returns as
    upsert map the entries of desired whose key is not in previous or whose
    value differs from the one in previous, and as delete list the keys of
    previous that are not in desired, each once; no key of the delete list
    is in the upsert map. *)
Theorem computeUserAttributesUpdate_upsert_delete (h : heap) (old new : loc) :
  let previous := deref h old in
  let desired := deref h new in
  let r := computeUserAttributesUpdate h old new in
  upd r = filter (λ kv, previous !! kv.1 = None ∨ previous !! kv.1 ≠ Some kv.2)
                 desired
  ∧ (∀ k, k ∈ del r ↔ is_Some (previous !! k) ∧ desired !! k = None)
  ∧ NoDup (del r)
  ∧ Forall (λ k, upd r !! k = None) (del r).
Proof.
  intros previous desired r.
  destruct (computeUserAttributesUpdate_spec h old new) as (Hupd & Hdel & _).
  fold previous desired r in Hupd, Hdel.
  assert (Hin : ∀ k, k ∈ del r ↔ is_Some (previous !! k) ∧ desired !! k = None).
  { intros k. rewrite Hdel. split.
    - intros [[k' v] [-> Hkv]]%list_elem_of_fmap.
      apply elem_of_map_to_list, lookup_difference_Some in Hkv as [Hp Hd].
      split; [by eexists | done].
    - intros [[v Hv] Hd]. apply list_elem_of_fmap. exists (k, v).
      split; [done|]. by apply elem_of_map_to_list, lookup_difference_Some. }
  split_and!.
  - apply map_eq. intros k. rewrite Hupd, map_lookup_filter.
    destruct (desired !! k) as [v|]; simpl; [|done].
    case_guard as Hg; simpl in Hg; case_decide as Hd; simpl; try done.
    + destruct Hg as [Hg|Hg]; congruence.
    + destruct (previous !! k) eqn:E; [|tauto].
      exfalso. apply Hg. right. congruence.
  - done.
  - rewrite Hdel. apply NoDup_fst_map_to_list.
  - apply Forall_forall. intros k [_ Hd]%Hin. by rewrite Hupd, Hd.
Qed.

(** C3, as the code has it.  [computeUserAttributesUpdate] changes one thing
    in the store: from the map object it is given as previous it removes
    every key that desired has, so that previous is left holding exactly the
    keys of the delete list.  Every other map object, desired included when
    it is a separate object, is as before. *)
Theorem computeUserAttributesUpdate_store (h : heap) (old new : loc) :
  store (computeUserAttributesUpdate h old new)
  = alter (λ previous, previous ∖ deref h new) old h.
Proof. apply computeUserAttributesUpdate_spec. Qed.

Lemma computeUserAttributesUpdate_desired_kept (h : heap) (old new : loc) :
  old ≠ new →
  store (computeUserAttributesUpdate h old new) !! new = h !! new.
Proof.
  intros Hne.
  destruct (computeUserAttributesUpdate_spec h old new) as (_ & _ & ->).
  by rewrite lookup_alter_ne.
Qed.

(** ** Attribute names on the wire *)

Lemma range_singleton (k v : string) : range {[k := v]} = [(k, v)].
Proof.
  apply Permutation_singleton_r. rewrite (range_perm _).
  by rewrite map_to_list_singleton.
Qed.

Lemma custom_key_not_standard (k : string) :
  UserAttributeKeyMatchesStandardAttribute ("custom:" +:+ k) = false.
Proof. reflexivity. Qed.

(** C2, as the code has it.  An attribute whose key is not a standard
    attribute and does not already start with [custom:] is written with the
    [custom:] prefix and read back under its own key. *)
Theorem flatten_expand_roundtrip (k v : string) :
  UserAttributeKeyMatchesStandardAttribute k = false →
  HasPrefix k "custom:" = false →
  flattenUserAttributes (expandAttribute {[k := v]}) = {[k := v]}.
Proof.
  intros Hstd Hpre. unfold expandAttribute.
  rewrite map_size_singleton, range_singleton.
  cbn -[HasPrefix UserAttributeKeyMatchesStandardAttribute
        flattenUserAttributes].
  rewrite Hstd, Hpre. unfold flattenUserAttributes.
  cbn [negb andb foldl Name Value StringValue default from_option id].
  rewrite custom_key_not_standard.
  change (TrimPrefix (TrimPrefix ("custom:" +:+ k) "dev:") "custom:") with k.
  apply insert_empty.
Qed.

(** A key that already starts with [custom:] is written as it is and read
    back without the prefix. *)
Lemma flatten_expand_custom (k v : string) :
  flattenUserAttributes (expandAttribute {[("custom:" +:+ k) := v]})
  = {[k := v]}.
Proof.
  unfold expandAttribute. rewrite map_size_singleton, range_singleton.
  cbn -[flattenUserAttributes]. unfold flattenUserAttributes.
  cbn [foldl Name Value StringValue default from_option id].
  rewrite custom_key_not_standard.
  change (TrimPrefix (TrimPrefix ("custom:" +:+ k) "dev:") "custom:") with k.
  apply insert_empty.
Qed.

End reconciliation.

(** The example of the specification: previous [nickname = a], desired
    [nickname = b, locale = en]; both are upserted, nothing is deleted. *)
Example reconcile_nickname :
  let r := @cognitoidp.computeUserAttributesUpdate range_canonical
             nicknameStore 1 2 in
  cognitoidp.upd r = {[ "nickname" := "b"; "locale" := "en" ]}
  ∧ cognitoidp.del r = [].
Proof. split; vm_compute; reflexivity. Qed.

(** C3, as stated, fails: after the call the previous map of the example no
    longer holds [nickname]. *)
Lemma computeUserAttributesUpdate_mutates_previous :
  let r := @cognitoidp.computeUserAttributesUpdate range_canonical
             nicknameStore 1 2 in
  deref nicknameStore 1 = {[ "nickname" := "a" ]}
  ∧ deref (cognitoidp.store r) 1 = ∅
  ∧ cognitoidp.store r ≠ nicknameStore.
Proof.
  split_and!; [vm_compute; reflexivity..|].
  intros Heq. apply (f_equal (λ h, deref h 1 !! "nickname")) in Heq.
  vm_compute in Heq. discriminate.
Qed.

(** C2, as stated, fails: [custom:team] is not a standard attribute and not
    empty, yet it is read back as [team]. *)
Lemma flatten_expand_custom_prefix_lost :
  cognitoidp.UserAttributeKeyMatchesStandardAttribute "custom:team" = false
  ∧ "custom:team" ≠ ""
  ∧ cognitoidp.flattenUserAttributes
      (@cognitoidp.expandAttribute range_canonical
         {[ "custom:team" := "core" ]})
    = {[ "team" := "core" ]}
  ∧ cognitoidp.flattenUserAttributes
      (@cognitoidp.expandAttribute range_canonical
         {[ "custom:team" := "core" ]})
    ≠ {[ "custom:team" := "core" ]}.
Proof.
  split_and!; [reflexivity | discriminate | vm_compute; reflexivity |].
  intros Heq. apply (f_equal (λ m : attrs, m !! "team")) in Heq.
  vm_compute in Heq. discriminate.
Qed.

Lemma flatten_expand_roundtrip_witness :
  cognitoidp.UserAttributeKeyMatchesStandardAttribute "team" = false
  ∧ HasPrefix "team" "custom:" = false
  ∧ cognitoidp.flattenUserAttributes
      (@cognitoidp.expandAttribute range_canonical {[ "team" := "core" ]})
    = {[ "team" := "core" ]}.
Proof.
  split_and!; [reflexivity | reflexivity |].
  apply flatten_expand_roundtrip; reflexivity.
Defined.

(** ** Import *)

(** C6.  [resourceUserImport] returns an error exactly when splitting the ID
    on [/] does not give two parts; it then returns no resource data and
    leaves [d] as it was.  When the split gives two parts, it sets
    [user_pool_id] to the first and [username] to the second and returns
    [d]. *)
Theorem resourceUserImport_two_parts (d : schema.ResourceData) :
  let '(imported, err, d') := cognitoidp.resourceUserImport d in
  (is_Some err ↔ length (Split (schema.Id d) "/") ≠ 2)
  ∧ (is_Some err → imported = [] ∧ d' = d)
  ∧ (∀ userPoolId name, Split (schema.Id d) "/" = [userPoolId; name] →
       err = None ∧ imported = [d']
       ∧ d' = schema.Set_ "username" (Some (schema.VString name))
                (schema.Set_ "user_pool_id"
                   (Some (schema.VString userPoolId)) d)
       ∧ schema.Get "user_pool_id" d' = Some (schema.VString userPoolId)
       ∧ schema.Get "username" d' = Some (schema.VString name)).
Proof.
  unfold cognitoidp.resourceUserImport.
  destruct (Split (schema.Id d) "/") as [|a [|b [|c l]]] eqn:E; simpl.
  all: split_and!.
  all: first
    [ intros ?? [= <- <-]; split_and!; try done;
      unfold schema.Get, schema.Set_; simpl; by simplify_map_eq
    | by intros ?? ?
    | by intros [? ?]
    | by intros _
    | split; [intros _; simpl; lia | intros _; by eexists]
    | split; [by intros [? ?] | done] ].
Qed.


(** C10.  An ID with exactly one [/] is accepted whatever its two parts
    are, the empty string included: the part before the [/] becomes
    [user_pool_id] and the part after it [username]. *)
Theorem resourceUserImport_empty_part (d : schema.ResourceData)
    (userPoolId name : string) :
  schema.Id d = userPoolId +:+ "/" +:+ name →
  Count userPoolId "/" = 0 → Count name "/" = 0 →
  let d' := schema.Set_ "username" (Some (schema.VString name))
              (schema.Set_ "user_pool_id"
                 (Some (schema.VString userPoolId)) d) in
  cognitoidp.resourceUserImport d = ([d'], None, d').
Proof.
  intros Hid Ha Hb. unfold cognitoidp.resourceUserImport.
  rewrite Hid. change ("/" +:+ name) with (String "/" name).
  rewrite Split_app, Split_no_sep by done. done.
Qed.


Lemma resourceUserImport_empty_part_witness :
  let d := schema.SetId "pool/" toCreate in
  let d' := schema.Set_ "username" (Some (schema.VString ""))
              (schema.Set_ "user_pool_id" (Some (schema.VString "pool")) d) in
  schema.Id d = "pool" +:+ "/" +:+ ""
  ∧ Count "pool" "/" = 0 ∧ Count "" "/" = 0
  ∧ cognitoidp.resourceUserImport d = ([d'], None, d').
Proof.
  split_and!; [reflexivity..|].
  apply (resourceUserImport_empty_part (schema.SetId "pool/" toCreate)
           "pool" ""); reflexivity.
Defined.

Lemma resourceUserImport_two_parts_witness :
  let d := schema.SetId "us-east-1_pool/alice" toCreate in
  Split (schema.Id d) "/" = ["us-east-1_pool"; "alice"]
  ∧ (cognitoidp.resourceUserImport d).1.2 = None
  ∧ schema.Get "user_pool_id" (cognitoidp.resourceUserImport d).2
    = Some (schema.VString "us-east-1_pool")
  ∧ schema.Get "username" (cognitoidp.resourceUserImport d).2
    = Some (schema.VString "alice").
Proof.
  pose proof (resourceUserImport_two_parts
                (schema.SetId "us-east-1_pool/alice" toCreate)) as Hspec.
  intros d. fold d in Hspec.
  destruct (cognitoidp.resourceUserImport d) as [[imported err] d'].
  destruct Hspec as (_ & _ & Hok).
  destruct (Hok "us-east-1_pool" "alice") as (? & ? & ? & ? & ?);
    [reflexivity|].
  split_and!; [reflexivity | assumption..].
Defined.

(** ** Reasoning about handlers *)

Section wp_rules.
Context {R C : Type}.
Implicit Types (w : World R C) (E : diag.Diagnostics → World R C → Prop).

Lemma wp_bind {A B} (m : M (World R C) A) (k : A → M (World R C) B) Q E w :
  wp m (λ a w', wp (k a) Q E w') E w → wp (bind m k) Q E w.
Proof. unfold wp, bind. by destruct (m w) as [[a|ds] w']. Qed.

(** A statement followed by the rest of the body: it is enough that the
    statement establishes [I] when it goes on, and that the rest is correct
    from any world satisfying [I]. *)
Lemma wp_cut {A B} (I : World R C → Prop) (m : M (World R C) A)
    (k : A → M (World R C) B) Q E w :
  wp m (λ _ w', I w') E w →
  (∀ a w', I w' → wp (k a) Q E w') →
  wp (bind m k) Q E w.
Proof.
  intros Hm Hk. apply wp_bind. unfold wp in *.
  destruct (m w) as [[a|ds] w']; [by apply Hk | done].
Qed.

Lemma wp_ret {A} (a : A) (Q : A → World R C → Prop) E w :
  Q a w → wp (ret a) Q E w.
Proof. done. Qed.

Lemma wp_return {A} ds (Q : A → World R C → Prop) E w :
  E ds w → wp (return_ ds) Q E w.
Proof. done. Qed.

Lemma wp_getData {B} (k : schema.ResourceData → M (World R C) B) Q E w :
  wp (k (data w)) Q E w → wp (bind getData k) Q E w.
Proof. intros Hk. by apply wp_bind. Qed.

Lemma wp_modifyData {B} f (k : unit → M (World R C) B) Q E w :
  wp (k tt) Q E (mkWorld (f (data w)) (remote w) (log w)) →
  wp (bind (modifyData f) k) Q E w.
Proof. intros Hk. by apply wp_bind. Qed.

Lemma wp_modifyData_last f (Q : unit → World R C → Prop) E w :
  Q tt (mkWorld (f (data w)) (remote w) (log w)) → wp (modifyData f) Q E w.
Proof. done. Qed.

Lemma wp_remoteCall {A B} (c : C) (op : R → A * R) (err : A → option error)
    (k : A → M (World R C) B) Q E w :
  (∀ a r', op (remote w) = (a, r') →
           wp (k a) Q E (mkWorld (data w) r' (log w ++ [(c, err a)]))) →
  wp (bind (remoteCall c op err) k) Q E w.
Proof.
  intros Hk. apply wp_bind. unfold wp at 1, remoteCall.
  destruct (op (remote w)) as [a r'] eqn:Hop. by apply Hk.
Qed.

Lemma wp_orReturn {B} err f (k : unit → M (World R C) B) Q E w :
  (∀ e, err = Some e → E (f e) w) →
  (err = None → wp (k tt) Q E w) →
  wp (bind (orReturn err f) k) Q E w.
Proof.
  intros He Hk. apply wp_bind. destruct err as [e|]; [by apply He | by apply Hk].
Qed.

Lemma wp_orReturn_last err f (Q : unit → World R C → Prop) E w :
  (∀ e, err = Some e → E (f e) w) →
  (err = None → Q tt w) →
  wp (orReturn err f) Q E w.
Proof. intros He Hk. destruct err as [e|]; [by apply He | by apply Hk]. Qed.

Lemma wp_invoke {B} (h : Handler (World R C))
    (k : diag.Diagnostics → M (World R C) B) Q E w :
  (∀ ds w', h w = (ds, w') → wp (k ds) Q E w') →
  wp (bind (invoke h) k) Q E w.
Proof.
  intros Hk. apply wp_bind. unfold wp at 1, invoke.
  destruct (h w) as [ds w'] eqn:Hh. by apply Hk.
Qed.

Lemma wp_func (body : M (World R C) diag.Diagnostics) Post w :
  wp body Post Post w → Post (func body w).1 (func body w).2.
Proof. unfold wp, func. by destruct (body w) as [[ds|ds] w']. Qed.

Lemma countCalls_snoc (p : C → bool) (d : schema.ResourceData) (r : R)
    (l : list (C * option error)) (c : C) (e : option error) :
  countCalls p (mkWorld d r (l ++ [(c, e)]))
  = countCalls p (mkWorld d r l) + (if p c then 1 else 0).
Proof.
  unfold countCalls, calls. cbn [log].
  rewrite fmap_app, List.filter_app, length_app. cbn.
  by destruct (p c).
Qed.

Lemma countCalls_data (p : C → bool) (d d' : schema.ResourceData) (r r' : R)
    (l : list (C * option error)) :
  countCalls p (mkWorld d r l) = countCalls p (mkWorld d' r' l).
Proof. done. Qed.

Lemma countCalls_zero (p : C → bool) w c :
  countCalls p w = 0 → p c = true → c ∉ calls w.
Proof.
  unfold countCalls. intros Hz Hc Hin.
  apply length_zero_iff_nil in Hz.
  assert (In c (List.filter p (calls w))) as Hf.
  { apply List.filter_In. split; [by apply list_elem_of_In | done]. }
  by rewrite Hz in Hf.
Qed.

End wp_rules.

(** One step of a handler body. *)
Ltac wp_step :=
  lazymatch goal with
  | |- wp (bind getData _) _ _ _ => apply wp_getData; cbn [data remote log]
  | |- wp (bind (modifyData _) _) _ _ _ =>
      apply wp_modifyData; cbn [data remote log]
  | |- wp (modifyData _) _ _ _ => apply wp_modifyData_last; cbn [data remote log]
  | |- wp (bind (remoteCall _ _ _) _) _ _ _ =>
      apply wp_remoteCall; intros ? ? ?; cbn [data remote log]
  | |- wp (bind (orReturn _ _) _) _ _ _ =>
      apply wp_orReturn; [intros ? -> | intros ->]
  | |- wp (orReturn _ _) _ _ _ =>
      apply wp_orReturn_last; [intros ? -> | intros ->]
  | |- wp (ret _) _ _ _ => apply wp_ret
  | |- wp (return_ _) _ _ _ => apply wp_return
  | |- wp (bind (if _ then _ else _) _) _ _ _ => apply wp_bind
  | |- wp (bind (match _ with _ => _ end) _) _ _ _ => apply wp_bind
  | |- wp (if ?b then _ else _) _ _ _ => destruct b eqn:?
  | |- wp (match ?x with _ => _ end) _ _ _ => destruct x eqn:?
  end.

Section user_handlers.
Import cognitoidp.
Context `{!Provider, !Client, !MapRange}.

(** [FindUserByTwoPartKey] issues [AdminGetUser] and reports
    [lookupResult]. *)
Lemma FindUserByTwoPartKey_eq (userPoolID username : string)
    (w : World Service Call) :
  let '(output, err, r') :=
    AdminGetUserWithContext username userPoolID (remote w) in
  FindUserByTwoPartKey userPoolID username w
  = (inl (lookupResult output err),
     mkWorld (data w) r' (log w ++ [(AdminGetUser username userPoolID, err)])).
Proof.
  unfold FindUserByTwoPartKey, lookupResult. unfold_monad.
  destruct (AdminGetUserWithContext _ _ _) as [[output err] r']. cbn [snd].
  destruct (ErrCodeEquals err _); [done|].
  by destruct err, output.
Qed.

(** [HasChange] is false when the prior and the planned value agree. *)
Lemma HasChange_same (key : string) (d : schema.ResourceData) :
  schema.prior d !! key = schema.planned d !! key →
  schema.HasChange key d = false.
Proof.
  intros Heq. unfold schema.HasChange, schema.GetChange. rewrite Heq.
  rewrite bool_decide_eq_true_2 by done. by rewrite orb_true_r.
Qed.

(** [resourceUserRead] in one equation. *)
Lemma resourceUserRead_eq (w : World Service Call) :
  let d := data w in
  let username := schema.asString (schema.Get "username" d) in
  let userPoolId := schema.asString (schema.Get "user_pool_id" d) in
  let '(output, err, r') :=
    AdminGetUserWithContext username userPoolId (remote w) in
  let log' := log w ++ [(AdminGetUser username userPoolId, err)] in
  resourceUserRead w =
    if negb (schema.IsNewResource d)
       && NotFound (errOf (lookupResult output err))
    then ([], mkWorld (schema.SetId "" d) r' log')
    else match lookupResult output err with
         | inl e => (DiagError names_CognitoIDP ErrActionReading ResNameUser
                       username e, mkWorld d r' log')
         | inr user => ([], mkWorld (refreshed user d) r' log')
         end.
Proof.
  unfold resourceUserRead, FindUserByTwoPartKey, lookupResult. unfold_monad.
  cbn [data remote log].
  destruct (AdminGetUserWithContext _ _ _) as [[output err] r'].
  cbn [snd].
  destruct (ErrCodeEquals err _) eqn:Hcode; cbn [errOf NotFound].
  - by destruct (negb _ && isNotFound _).
  - destruct err as [e|], output as [o|]; cbn [errOf NotFound];
      try by destruct (negb _ && isNotFound _).
    by rewrite andb_false_r.
Qed.

(** The read issues one call, [AdminGetUser]. *)
Lemma resourceUserRead_count p (w : World Service Call) :
  countCalls p (resourceUserRead w).2
  = countCalls p w
    + (if p (AdminGetUser (schema.asString (schema.Get "username" (data w)))
               (schema.asString (schema.Get "user_pool_id" (data w))))
       then 1 else 0).
Proof.
  pose proof (resourceUserRead_eq w) as Heq. cbv zeta in Heq.
  destruct (AdminGetUserWithContext _ _ _) as [[output err] r'].
  rewrite Heq. destruct w as [d r l]. cbn [data remote log].
  destruct (negb _ && _); [|destruct (lookupResult _ _)]; cbn [snd];
    by rewrite countCalls_snoc.
Qed.

Ltac count_leaf :=
  cbv beta; unfold countCalls, calls in *; cbn [data remote log] in *;
  rewrite ?fmap_app, ?List.filter_app, ?length_app;
  cbn [fmap list_fmap fst List.filter length isAdminUpdateUserAttributes
       isAdminDeleteUserAttributes isEnableDisable isAdminGetUser];
  repeat match goal with
         | H : bool_decide _ = true |- _ => apply bool_decide_eq_true in H
         | H : bool_decide _ = false |- _ => apply bool_decide_eq_false in H
         end;
  try lia.

(** C8.  An update in which [enabled] has not changed issues neither
    [AdminEnableUser] nor [AdminDisableUser]: these calls are made only when
    the value of [enabled] differs from the one in the prior state. *)
Theorem update_enabled_unchanged (d : schema.ResourceData) (r : Service) :
  schema.HasChange "enabled" d = false →
  countCalls isEnableDisable (resourceUserUpdate (start d r)).2 = 0.
Proof.
  intros Hch. unfold resourceUserUpdate.
  apply (wp_func _ (λ _ w, countCalls isEnableDisable w = 0)).
  cbv zeta. unfold start. wp_step. rewrite Hch.
  set (I := λ w : World Service Call, countCalls isEnableDisable w = 0).
  apply (wp_cut I).
  { repeat wp_step; subst I; count_leaf. }
  intros _ [d1 r1 l1] Hw1. apply (wp_cut I).
  { by wp_step. }
  intros _ [d2 r2 l2] Hw2. apply (wp_cut I).
  { repeat wp_step; subst I; count_leaf. }
  intros _ [d3 r3 l3] Hw3. wp_step. apply (wp_cut I).
  { repeat wp_step; subst I; count_leaf. }
  intros _ w4 Hw4. apply wp_invoke. intros ds w' Hread. wp_step.
  pose proof (resourceUserRead_count isEnableDisable w4) as Hc.
  rewrite Hread in Hc. cbn [snd isEnableDisable] in Hc.
  unfold I in *. rewrite Hc, Hw4. lia.
Qed.


(** *** Failing remote calls *)
















End user_handlers.

(** ** Reading a resource that is gone *)

Section read_handlers.
Context `{!Provider} `{!cognitoidp.Client} `{!networkmanager.Client}.

(** C5, as the code has it.  In both read handlers, when the lookup of the
    resource itself ([FindUserByTwoPartKey], [FindCoreNetworkByID]) reports
    a not-found error and the resource is not new, the handler clears the ID
    and returns no diagnostic; for any other error of that lookup it returns
    an error diagnostic and leaves the resource data alone.  The second
    lookup of the policy attachment, for the policy document, is handled
    differently: on a not-found error, new resource or not, the handler
    clears [policy_document], keeps the ID and returns no diagnostic; on any
    other error it returns an error diagnostic. *)
Theorem read_not_found (d : schema.ResourceData)
    (r : cognitoidp.Service) (n : networkmanager.Service) :
  (let '(ds, w') := cognitoidp.resourceUserRead (start d r) in
   match cognitoidp.FindUserByTwoPartKey
           (schema.asString (schema.Get "user_pool_id" d))
           (schema.asString (schema.Get "username" d)) (start d r) with
   | (inl (inl err), _) =>
       if negb (schema.IsNewResource d) && isNotFound err
       then ds = [] ∧ data w' = schema.SetId "" d
       else diag.HasError ds = true ∧ data w' = d
   | _ => True
   end)
  ∧
  (let '(ds, w') :=
     networkmanager.resourceCoreNetworkPolicyAttachmentRead (start d n) in
   match networkmanager.FindCoreNetworkByID (schema.Id d) n with
   | (inl err, _) =>
       if negb (schema.IsNewResource d) && isNotFound err
       then ds = [] ∧ data w' = schema.SetId "" d
       else diag.HasError ds = true ∧ data w' = d
   | (inr coreNetwork, n1) =>
       match networkmanager.FindCoreNetworkPolicyByID (schema.Id d) n1 with
       | (inl err, _) =>
           if isNotFound err
           then ds = [] ∧ schema.Id (data w') = schema.Id d
                ∧ schema.Get "policy_document" (data w') = None
           else diag.HasError ds = true
       | (inr _, _) => True
       end
   end).
Proof.
  split.
  - unfold cognitoidp.resourceUserRead, cognitoidp.FindUserByTwoPartKey.
    unfold_monad. unfold start. cbn [data remote log].
    destruct (cognitoidp.AdminGetUserWithContext _ _ _) as [[output err] r'].
    cbn [snd].
    destruct (ErrCodeEquals err _);
      [|destruct err as [e|]; [|destruct output as [o|]]];
      cbn [cognitoidp.errOf NotFound];
      first [ done
            | by rewrite andb_false_r
            | by destruct (negb _ && isNotFound _) ].
  - unfold networkmanager.resourceCoreNetworkPolicyAttachmentRead.
    unfold_monad. unfold start. cbn [data remote log].
    destruct (networkmanager.FindCoreNetworkByID _ _) as [[err|cn] n1].
    + cbn [networkmanager.errOf NotFound].
      by destruct (negb _ && isNotFound _).
    + cbn [networkmanager.errOf NotFound]. rewrite andb_false_r.
      cbn [data remote log].
      destruct (networkmanager.FindCoreNetworkPolicyByID _ _)
        as [[err|doc] n2]; cbn [networkmanager.errOf NotFound];
        [|by destruct (networkmanager.EncodeJSONValue doc)].
      destruct (isNotFound err); [|done].
      split_and!; [done..|]. unfold schema.Get, schema.Set_. cbn.
      apply lookup_delete_eq.
Qed.

(** C9.  Deleting a core-network policy attachment does nothing: the handler
    is the SDK's no-op, which issues no call, returns no diagnostic and
    leaves the resource data and the remote service as they are. *)
Theorem policy_attachment_delete_noop
    (w : World networkmanager.Service networkmanager.Call) :
  let '(ds, w') :=
    DeleteWithoutTimeout networkmanager.ResourceCoreNetworkPolicyAttachment w
  in
  ds = [] ∧ data w' = data w ∧ remote w' = remote w ∧ log w' = log w.
Proof. done. Qed.

End read_handlers.

(** ** Concrete runs *)


(** It fails in the create as well: when [AdminDisableUser] fails, the
    handler returns an error diagnostic, but the ID set after the successful
    [AdminCreateUser] stays in the resource data. *)
Lemma create_failure_keeps_id :
  let run := @cognitoidp.resourceUserCreate exampleProvider
               (scripted disableFails) range_canonical (start toCreate 0) in
  (cognitoidp.AdminDisableUser "alice" "us-east-1_pool", Some internalError)
    ∈ log run.2
  ∧ diag.HasError run.1 = true
  ∧ schema.Id (data run.2) = "us-east-1_pool/alice"
  ∧ data run.2 ≠ toCreate.
Proof.
  split_and!.
  - vm_compute. right. left.
  - vm_compute. reflexivity.
  - vm_compute. reflexivity.
  - intros Heq. apply (f_equal schema.Id) in Heq. vm_compute in Heq.
    discriminate.
Qed.


(** C5, as stated, fails: the attachment is not new and the lookup of its
    policy document reports a not-found error, yet the ID stays. *)
Lemma read_policy_not_found_keeps_id :
  let run := @networkmanager.resourceCoreNetworkPolicyAttachmentRead
               exampleProvider policyMissing (start attachment 0) in
  schema.IsNewResource attachment = false
  ∧ (networkmanager.GetCoreNetworkPolicy "core-network-0123456789abcdef0",
     Some (NotFoundError None)) ∈ log run.2
  ∧ @isNotFound exampleProvider (NotFoundError None) = true
  ∧ run.1 = []
  ∧ schema.Id (data run.2) = "core-network-0123456789abcdef0"
  ∧ schema.Id (data run.2) ≠ "".
Proof.
  split_and!.
  - reflexivity.
  - vm_compute. right. left.
  - reflexivity.
  - vm_compute. reflexivity.
  - vm_compute. reflexivity.
  - vm_compute. discriminate.
Qed.


Lemma update_enabled_unchanged_witness :
  schema.HasChange "enabled" toUpdate = false
  ∧ countCalls isEnableDisable
      (@cognitoidp.resourceUserUpdate exampleProvider (scripted allSucceed)
         range_canonical (start toUpdate 0)).2 = 0.
Proof.
  assert (schema.HasChange "enabled" toUpdate = false) as Hch
    by (vm_compute; reflexivity).
  split; [exact Hch|].
  exact (@update_enabled_unchanged exampleProvider (scripted allSucceed)
           range_canonical toUpdate 0 Hch).
Defined.

(** * Further properties of the code *)

(** ** Reconciliation, continued *)

Section reconciliation_more.
Import cognitoidp.

Lemma del_elem_of `{!MapRange} (h : heap) (old new : loc) (k : string) :
  k ∈ del (computeUserAttributesUpdate h old new)
  ↔ is_Some (deref h old !! k) ∧ deref h new !! k = None.
Proof.
  destruct (computeUserAttributesUpdate_spec h old new) as (_ & Hdel & _).
  rewrite Hdel. split.
  - intros [[k' v] [-> Hkv]]%list_elem_of_fmap.
    apply elem_of_map_to_list, lookup_difference_Some in Hkv as [Hp Hd].
    split; [by eexists | done].
  - intros [[v Hv] Hd]. apply list_elem_of_fmap. exists (k, v).
    split; [done|]. by apply elem_of_map_to_list, lookup_difference_Some.
Qed.

(** X1.  Carrying out what [computeUserAttributesUpdate] returns reaches the
    desired attributes: previous without the keys of the delete list,
    overwritten with the upsert map, is desired. *)
Theorem reconcile_converges `{!MapRange} (h : heap) (old new : loc) :
  let r := computeUserAttributesUpdate h old new in
  upd r ∪ filter (λ kv, kv.1 ∉ del r) (deref h old) = deref h new.
Proof.
  intros r. apply map_eq. intros k.
  destruct (computeUserAttributesUpdate_spec h old new) as (Hupd & _ & _).
  fold r in Hupd. rewrite lookup_union, Hupd, map_lookup_filter.
  pose proof (del_elem_of h old new k) as Hdel. fold r in Hdel.
  destruct (deref h new !! k) as [v|] eqn:Hn.
  - case_decide as Ho.
    + rewrite Ho. simpl. rewrite option_guard_True; [done|].
      simpl. rewrite Hdel. by intros [_ ?].
    + by destruct (_ ≫= _).
  - destruct (deref h old !! k) as [vo|] eqn:Ho; simpl; [|done].
    rewrite option_guard_False; [done|].
    simpl. intros Hnot. apply Hnot, Hdel. by split; [eexists|].
Qed.

(** X2.  When previous and desired hold the same entries, nothing is to be
    upserted and nothing to be deleted. *)
Theorem reconcile_equal_noop `{!MapRange} (h : heap) (old new : loc) :
  deref h old = deref h new →
  let r := computeUserAttributesUpdate h old new in
  upd r = ∅ ∧ del r = [].
Proof.
  intros Heq r.
  destruct (computeUserAttributesUpdate_spec h old new) as (Hupd & Hdel & _).
  fold r in Hupd, Hdel. split.
  - apply map_eq. intros k. rewrite Hupd, lookup_empty, Heq.
    destruct (deref h new !! k); [|done]. by rewrite decide_True.
  - apply Permutation_nil_r. rewrite Hdel, Heq.
    replace (deref h new ∖ deref h new) with (∅ : attrs).
    + by rewrite map_to_list_empty.
    + apply map_eq. intros k. rewrite lookup_empty, lookup_difference.
      by destruct (_ !! k).
Qed.

(** X3.  The order in which Go ranges over the two maps does not matter:
    under any two orders the upsert map and the store left behind are the
    same, and the delete lists hold the same keys. *)
Theorem reconcile_order_independent (R1 R2 : MapRange) (h : heap)
    (old new : loc) :
  let r1 := @computeUserAttributesUpdate R1 h old new in
  let r2 := @computeUserAttributesUpdate R2 h old new in
  upd r1 = upd r2 ∧ del r1 ≡ₚ del r2 ∧ store r1 = store r2.
Proof.
  intros r1 r2.
  destruct (@computeUserAttributesUpdate_spec R1 h old new) as (Hu1 & Hd1 & Hs1).
  destruct (@computeUserAttributesUpdate_spec R2 h old new) as (Hu2 & Hd2 & Hs2).
  fold r1 in Hu1, Hd1, Hs1. fold r2 in Hu2, Hd2, Hs2. split_and!.
  - apply map_eq. intros k. by rewrite Hu1, Hu2.
  - by rewrite Hd1, Hd2.
  - by rewrite Hs1, Hs2.
Qed.

End reconciliation_more.

Lemma reconcile_equal_noop_witness :
  let h : heap := {[ 1%positive := {[ "nickname" := "a" ]};
                     2%positive := {[ "nickname" := "a" ]} ]} in
  deref h 1 = deref h 2
  ∧ cognitoidp.upd (@cognitoidp.computeUserAttributesUpdate range_canonical
                      h 1 2) = ∅
  ∧ cognitoidp.del (@cognitoidp.computeUserAttributesUpdate range_canonical
                      h 1 2) = [].
Proof.
  intros h.
  assert (deref h 1 = deref h 2) as Heq by (vm_compute; reflexivity).
  split; [exact Heq|].
  exact (@reconcile_equal_noop range_canonical h 1 2 Heq).
Defined.

(** ** Attribute names, continued *)

Section names_more.
Import cognitoidp.

Lemma foldl_insert_list_to_map (l : list (string * string)) :
  foldl (λ (acc : attrs) '(k, v), <[k := v]> acc) ∅ l
  = list_to_map (reverse l).
Proof.
  induction l as [|[k v] l IH] using rev_ind; [done|].
  rewrite foldl_app, reverse_app. cbn. by rewrite IH.
Qed.

Lemma foldl_insert_range `{!MapRange} (m : attrs) :
  foldl (λ (acc : attrs) '(k, v), <[k := v]> acc) ∅ (range m) = m.
Proof.
  rewrite foldl_insert_list_to_map. symmetry. apply list_to_map_flip.
  by rewrite reverse_Permutation, (range_perm m).
Qed.

Lemma wireName_wellFormed (k : string) : wellFormedName (wireName k).
Proof.
  unfold wellFormedName, wireName.
  destruct (UserAttributeKeyMatchesStandardAttribute k) eqn:Hs; [by left|].
  destruct (HasPrefix k "custom:") eqn:Hp; simpl; by right.
Qed.

Lemma wireName_idempotent (k : string) : wireName (wireName k) = wireName k.
Proof.
  unfold wireName at 1.
  destruct (wireName_wellFormed k) as [-> | ->];
    by rewrite ?andb_false_r.
Qed.

(** Reading back the name under which a key without [custom:] prefix was
    sent gives the key. *)
Lemma flatten_wireName (acc : attrs) (k v : string) :
  HasPrefix k "custom:" = false →
  (if UserAttributeKeyMatchesStandardAttribute (wireName k)
   then <[wireName k := v]> acc
   else <[TrimPrefix (TrimPrefix (wireName k) "dev:") "custom:" := v]> acc)
  = <[k := v]> acc.
Proof.
  intros Hp. unfold wireName. rewrite Hp.
  destruct (UserAttributeKeyMatchesStandardAttribute k) eqn:Hs; simpl.
  - by rewrite Hs.
  - reflexivity.
Qed.

(** X4.  Round trip of a whole attribute map: when no key starts with
    [custom:], reading back with [flattenUserAttributes] what
    [expandAttribute] sends gives the map again, standard attributes
    included and whatever the order of the range. *)
Theorem flatten_expand_map `{!MapRange} (m : attrs) :
  (∀ k, is_Some (m !! k) → HasPrefix k "custom:" = false) →
  flattenUserAttributes (expandAttribute m) = m.
Proof.
  intros Hkeys. unfold expandAttribute.
  destruct (Nat.eqb (size m) 0) eqn:Hsz.
  { apply Nat.eqb_eq, map_size_empty_iff in Hsz. by subst m. }
  rewrite <-(foldl_insert_range m) at 2.
  assert (Hin : ∀ kv, kv ∈ range m → HasPrefix kv.1 "custom:" = false).
  { intros [k v]. rewrite (range_perm m). intros Hkv%elem_of_map_to_list.
    apply Hkeys. by eexists. }
  unfold flattenUserAttributes. generalize (∅ : attrs).
  induction (range m) as [|[k v] l IH]; intros acc; [done|].
  cbn [fmap list_fmap foldl Name Value StringValue default from_option id].
  fold (wireName k).
  rewrite (flatten_wireName acc k v) by (apply (Hin (k, v)); by left).
  apply IH. intros kv Hkv. apply Hin. by right.
Qed.

(** X5.  [expandAttribute] sends one attribute per key of the map, each
    with a name and a value that are not nil, and each name is a standard
    attribute or starts with [custom:]. *)
Theorem expandAttribute_wellFormed `{!MapRange} (m : attrs) :
  length (expandAttribute m) = size m
  ∧ Forall (λ a, ∃ n v, Name a = Some n ∧ Value a = Some v
                        ∧ wellFormedName n) (expandAttribute m).
Proof.
  unfold expandAttribute. destruct (Nat.eqb (size m) 0) eqn:Hsz.
  { apply Nat.eqb_eq in Hsz. by rewrite Hsz. }
  split.
  - rewrite length_fmap, (range_perm m). by rewrite length_map_to_list.
  - apply Forall_fmap, Forall_forall. intros [k v] _. cbn.
    eexists _, v. split_and!; [done..|]. apply (wireName_wellFormed k).
Qed.

(** X6.  Deleting addresses an attribute by the name under which writing
    sent it: for any enumeration [keys] of the keys of a map, the names
    [expandAttribute] sends for the map are, up to their order, the names
    [expandUserAttributesDelete] sends for [keys].  The two enumerations,
    the range inside [expandAttribute] and [keys], need not agree. *)
Theorem delete_names_match_written_names `{!MapRange} (m : attrs)
    (keys : list string) :
  keys ≡ₚ (map_to_list m).*1 →
  (λ a, StringValue (Name a)) <$> expandAttribute m
  ≡ₚ expandUserAttributesDelete keys.
Proof.
  intros Hkeys. unfold expandUserAttributesDelete.
  rewrite Hkeys. clear keys Hkeys. unfold expandAttribute.
  destruct (Nat.eqb (size m) 0) eqn:Hsz.
  { apply Nat.eqb_eq, map_size_empty_iff in Hsz. subst m.
    by rewrite map_to_list_empty. }
  rewrite <-(range_perm m), <-!list_fmap_compose.
  apply reflexive_eq, list_fmap_ext. by intros _ [k v] _.
Qed.

Lemma wireName_cases (k : string) :
  (wellFormedName k → wireName k = k)
  ∧ (¬ wellFormedName k → wireName k = "custom:" +:+ k).
Proof.
  unfold wireName, wellFormedName.
  destruct (UserAttributeKeyMatchesStandardAttribute k);
    destruct (HasPrefix k "custom:"); cbn [negb andb]; split; intros Hk;
    first [ done | by destruct Hk | exfalso; apply Hk; auto ].
Qed.

(** X7.  [expandUserAttributesDelete] keeps the number and the order of
    the names: the name sent at a position is the input name at that
    position, unchanged when it is a standard attribute or starts with
    [custom:], and with [custom:] put in front otherwise.  Every name sent
    is a standard attribute or a [custom:] one, and applying the function
    again changes nothing. *)
Theorem expandUserAttributesDelete_idempotent (input : list string) :
  Forall2 (λ k n, (wellFormedName k → n = k)
                  ∧ (¬ wellFormedName k → n = "custom:" +:+ k))
          input (expandUserAttributesDelete input)
  ∧ Forall wellFormedName (expandUserAttributesDelete input)
  ∧ expandUserAttributesDelete (expandUserAttributesDelete input)
    = expandUserAttributesDelete input.
Proof.
  unfold expandUserAttributesDelete. split_and!.
  - apply Forall2_fmap_r, Forall_Forall2_diag, Forall_forall.
    intros k _. apply (wireName_cases k).
  - apply Forall_fmap, Forall_forall. intros k _. apply (wireName_wellFormed k).
  - rewrite <-list_fmap_compose. apply list_fmap_ext. intros _ k _.
    apply (wireName_idempotent k).
Qed.

(** X8.  [expandUserClientMetadata] sends the metadata map as it is,
    whatever the order of the range. *)
Theorem expandUserClientMetadata_id `{!MapRange} (tfMap : attrs) :
  expandUserClientMetadata tfMap = tfMap.
Proof. apply foldl_insert_range. Qed.

(** X9.  [expandUserDesiredDeliveryMediums] lists every medium of the set
    once: the list has no duplicates and holds exactly the set. *)
Theorem expandUserDesiredDeliveryMediums_set (tfSet : gset string) :
  NoDup (expandUserDesiredDeliveryMediums tfSet)
  ∧ list_to_set (expandUserDesiredDeliveryMediums tfSet) = tfSet.
Proof.
  assert (Happ : ∀ (l acc : list string),
            foldl (λ apiList elem, apiList ++ [elem]) acc l = acc ++ l).
  { induction l as [|x l IH]; intros acc; cbn [foldl].
    - by rewrite app_nil_r.
    - by rewrite IH, <-app_assoc. }
  unfold expandUserDesiredDeliveryMediums. rewrite Happ, app_nil_l.
  split; [apply NoDup_elements | apply list_to_set_elements_L].
Qed.

(** X10.  [retrieveUserSub] returns the value of the first attribute named
    [sub], and the empty string when no attribute is named [sub]. *)
Theorem retrieveUserSub_first (before after : list AttributeType)
    (a : AttributeType) :
  Forall (λ b, StringValue (Name b) ≠ "sub") before →
  (StringValue (Name a) = "sub" →
   retrieveUserSub (before ++ a :: after) = StringValue (Value a))
  ∧ retrieveUserSub before = "".
Proof.
  intros Hb. unfold retrieveUserSub.
  induction before as [|b before IH]; cbn.
  - split; [|done]. intros Ha. rewrite Ha. done.
  - apply Forall_cons in Hb as [Hne Hb].
    apply String.eqb_neq in Hne. rewrite Hne. by apply IH.
Qed.

End names_more.

Lemma flatten_expand_map_witness :
  let m : attrs := {[ "email" := "a@b.c"; "team" := "core" ]} in
  (∀ k, is_Some (m !! k) → HasPrefix k "custom:" = false)
  ∧ cognitoidp.flattenUserAttributes
      (@cognitoidp.expandAttribute range_canonical m) = m.
Proof.
  intros m.
  assert (∀ k, is_Some (m !! k) → HasPrefix k "custom:" = false) as Hk.
  { intros k [v Hv]. unfold m in Hv.
    apply lookup_insert_Some in Hv as [[<- _]|[_ Hv]]; [reflexivity|].
    apply lookup_singleton_Some in Hv as [<- _]. reflexivity. }
  split; [exact Hk|].
  exact (@flatten_expand_map range_canonical m Hk).
Defined.

Lemma delete_names_match_written_names_witness :
  let m : attrs := {[ "email" := "a@b.c"; "team" := "core" ]} in
  ["team"; "email"] ≡ₚ (map_to_list m).*1
  ∧ (λ a, StringValue (cognitoidp.Name a))
      <$> @cognitoidp.expandAttribute range_canonical m
    ≡ₚ cognitoidp.expandUserAttributesDelete ["team"; "email"].
Proof.
  intros m.
  assert (["team"; "email"] ≡ₚ (map_to_list m).*1) as Hkeys.
  { apply NoDup_Permutation.
    - repeat constructor; set_unfold; intuition discriminate.
    - apply NoDup_fst_map_to_list.
    - intros k. rewrite list_elem_of_fmap. split.
      + intros Hk. apply elem_of_cons in Hk as [-> | Hk].
        * exists ("team", "core"). split; [done|].
          by apply elem_of_map_to_list.
        * apply list_elem_of_singleton in Hk as ->.
          exists ("email", "a@b.c"). split; [done|].
          by apply elem_of_map_to_list.
      + intros [[k' v] [-> Hkv%elem_of_map_to_list]]. unfold m in Hkv.
        apply lookup_insert_Some in Hkv as [[<- _]|[_ Hkv]];
          [right; left|].
        apply lookup_singleton_Some in Hkv as [<- _]. left. }
  split; [exact Hkeys|].
  exact (@delete_names_match_written_names range_canonical m _ Hkeys).
Defined.

Lemma retrieveUserSub_first_witness :
  let before := [ {| cognitoidp.Name := Some "email";
                     cognitoidp.Value := Some "a@b.c" |} ] in
  let a := {| cognitoidp.Name := Some "sub"; cognitoidp.Value := Some "1234" |} in
  Forall (λ b, StringValue (cognitoidp.Name b) ≠ "sub") before
  ∧ cognitoidp.retrieveUserSub (before ++ [a]) = "1234"
  ∧ cognitoidp.retrieveUserSub before = "".
Proof.
  intros before a.
  assert (Forall (λ b, StringValue (cognitoidp.Name b) ≠ "sub") before) as Hb.
  { repeat constructor. discriminate. }
  split; [exact Hb|].
  destruct (retrieveUserSub_first before [] a Hb) as [H1 H2].
  split; [exact (H1 eq_refl) | exact H2].
Defined.

(** ** The handlers of the Cognito user, continued *)

Lemma sameExcept_refl keys d : sameExcept keys d d.
Proof. by repeat split. Qed.

Lemma sameExcept_Set keys d d1 key v :
  key ∈ keys → sameExcept keys d d1 →
  sameExcept keys d (schema.Set_ key v d1).
Proof.
  intros Hkey (Hn & Ht & Hp & Hpl & Hget). repeat split; try done.
  intros k Hk. rewrite <-(Hget k Hk). unfold schema.Get, schema.Set_. cbn.
  assert (key ≠ k) by (intros ->; done).
  destruct v; [by rewrite lookup_insert_ne | by rewrite lookup_delete_ne].
Qed.

Lemma sameExcept_SetId keys d d1 id :
  sameExcept keys d d1 → sameExcept keys d (schema.SetId id d1).
Proof. done. Qed.

Lemma sameExcept_weaken keys keys' d d1 :
  keys ⊆ keys' → sameExcept keys d d1 → sameExcept keys' d d1.
Proof.
  intros Hsub (Hn & Ht & Hp & Hpl & Hget). repeat split; try done.
  intros k Hk. apply Hget. intros Hin. by apply Hk, Hsub.
Qed.

Lemma sameExcept_trans keys d d1 d2 :
  sameExcept keys d d1 → sameExcept keys d1 d2 → sameExcept keys d d2.
Proof.
  intros (Hn & Ht & Hp & Hpl & Hget) (Hn' & Ht' & Hp' & Hpl' & Hget').
  repeat split; try congruence.
  intros k Hk. by rewrite Hget', Hget.
Qed.

Ltac solve_elem_of :=
  repeat first [ by apply list_elem_of_here | apply list_elem_of_further ].

Ltac solve_sameExcept :=
  repeat first
    [ assumption
    | apply sameExcept_refl
    | apply sameExcept_SetId
    | apply sameExcept_Set; [solve_elem_of|] ].

Section user_handlers_more.
Import cognitoidp.
Context `{!Provider, !Client, !MapRange}.

Lemma refreshed_sameExcept user d : sameExcept readKeys d (refreshed user d).
Proof. unfold refreshed, readKeys. solve_sameExcept. Qed.

(** X11.  [FindUserByTwoPartKey] returns the user exactly when
    [AdminGetUser] returned no error and an output that is not nil; it
    issues that one call and leaves the resource data alone. *)
Theorem FindUserByTwoPartKey_found (userPoolID username : string)
    (w : World Service Call) :
  let '(output, err, _) :=
    AdminGetUserWithContext username userPoolID (remote w) in
  let '(res, w') := FindUserByTwoPartKey userPoolID username w in
  data w' = data w
  ∧ log w' = log w ++ [(AdminGetUser username userPoolID, err)]
  ∧ ∀ user, res = inl (inr user) ↔ err = None ∧ output = Some user.
Proof.
  pose proof (FindUserByTwoPartKey_eq userPoolID username w) as Heq.
  destruct (AdminGetUserWithContext _ _ _) as [[output err] r'].
  rewrite Heq. split_and!; [done..|]. intros user. unfold lookupResult.
  destruct err as [e|]; cbn.
  - split; [|by intros [? _]]. by case_match.
  - destruct output as [o|]; split.
    + by intros [= ->].
    + by intros [_ [= ->]].
    + done.
    + by intros [_ ?].
Qed.

(** X12.  [resourceUserDelete] issues one call, [AdminDeleteUser] for the
    user and pool of the resource data, returns an error diagnostic exactly
    when that call fails, and never writes to the resource data. *)
Theorem resourceUserDelete_one_call (d : schema.ResourceData) (r : Service) :
  let '(err, _) :=
    AdminDeleteUserWithContext (schema.asString (schema.Get "username" d))
      (schema.asString (schema.Get "user_pool_id" d)) r in
  let '(ds, w') := resourceUserDelete (start d r) in
  data w' = d
  ∧ log w' = [(AdminDeleteUser (schema.asString (schema.Get "username" d))
                 (schema.asString (schema.Get "user_pool_id" d)), err)]
  ∧ (diag.HasError ds = true ↔ is_Some err)
  ∧ (err = None ↔ ds = []).
Proof.
  unfold resourceUserDelete. unfold_monad. unfold start. cbn [data remote log].
  destruct (AdminDeleteUserWithContext _ _ _) as [[e|] r']; cbn.
  - split_and!; try done; split; first [done | by eexists].
  - split_and!; try done; split; first [done | by intros [? ?]].
Qed.

(** The calls and the writes of [resourceUserRead]. *)
Lemma resourceUserRead_effect (w : World Service Call) :
  let '(ds, w') := resourceUserRead w in
  calls w' = calls w
             ++ [AdminGetUser (schema.asString (schema.Get "username" (data w)))
                   (schema.asString (schema.Get "user_pool_id" (data w)))]
  ∧ sameExcept readKeys (data w) (data w')
  ∧ (schema.Id (data w') = schema.Id (data w)
     ∨ (schema.IsNewResource (data w) = false
        ∧ schema.Id (data w') = "" ∧ ds = [])).
Proof.
  pose proof (resourceUserRead_eq w) as Heq. cbv zeta in Heq.
  destruct (AdminGetUserWithContext _ _ _) as [[output err] r'].
  rewrite Heq. clear Heq. unfold calls.
  destruct (negb _ && _) eqn:Hclear.
  - apply andb_true_iff in Hclear as [Hn%negb_true_iff _]. cbn [data log].
    rewrite fmap_app. split_and!; [done | solve_sameExcept | by right].
  - destruct (lookupResult output err); cbn [data log]; rewrite fmap_app;
      (split_and!; [done | | by left]).
    + solve_sameExcept.
    + apply refreshed_sameExcept.
Qed.

Lemma resourceUserRead_calls (w : World Service Call) :
  calls (resourceUserRead w).2
  = calls w ++ [AdminGetUser (schema.asString (schema.Get "username" (data w)))
                  (schema.asString (schema.Get "user_pool_id" (data w)))].
Proof.
  pose proof (resourceUserRead_effect w) as Hf.
  destruct (resourceUserRead w). by destruct Hf.
Qed.

Lemma resourceUserRead_sameExcept (w : World Service Call) :
  sameExcept readKeys (data w) (data (resourceUserRead w).2).
Proof.
  pose proof (resourceUserRead_effect w) as Hf.
  destruct (resourceUserRead w). by destruct Hf as (_ & ? & _).
Qed.

(** X13.  [resourceUserRead] issues one call, [AdminGetUser] for the user
    and pool of the resource data.  It writes to the eight attributes it
    refreshes and to nothing else (prior state, plan and every other
    attribute stay), and it keeps the ID unless the resource is not new, in
    which case it may clear it, returning no diagnostic. *)
Theorem resourceUserRead_frame (w : World Service Call) :
  let '(ds, w') := resourceUserRead w in
  calls w' = calls w
             ++ [AdminGetUser (schema.asString (schema.Get "username" (data w)))
                   (schema.asString (schema.Get "user_pool_id" (data w)))]
  ∧ sameExcept readKeys (data w) (data w')
  ∧ (schema.Id (data w') = schema.Id (data w)
     ∨ (schema.IsNewResource (data w) = false
        ∧ schema.Id (data w') = "" ∧ ds = [])).
Proof.
  pose proof (resourceUserRead_effect w) as Hf.
  destruct (resourceUserRead w) as [ds w'].
  destruct Hf as (Hcalls & Hsame & Hid). by split_and!.
Qed.

End user_handlers_more.

Lemma allCalls_snoc {C} (P : C → Prop) (l : list (C * option error))
    (c : C) (e : option error) :
  Forall P l.*1 → P c → Forall P (l ++ [(c, e)]).*1.
Proof.
  intros Hl Hc. rewrite fmap_app. apply Forall_app. split; [done|].
  by repeat constructor.
Qed.

Ltac solve_allCalls :=
  unfold calls in *; cbn [log] in *;
  repeat first [ eassumption
               | apply Forall_nil_2
               | apply allCalls_snoc ].

Section user_calls.
Import cognitoidp.
Context `{!Provider, !Client, !MapRange}.

Lemma Get_clear_ne key k d :
  key ≠ k → schema.Get k (schema.Set_ key None d) = schema.Get k d.
Proof. intros Hne. unfold schema.Get, schema.Set_. cbn. by apply lookup_delete_ne. Qed.

(** Every call of a create, and what the create leaves of the resource
    data. *)
Lemma resourceUserCreate_calls (d : schema.ResourceData) (r : Service) :
  Forall (createCall d) (calls (resourceUserCreate (start d r)).2)
  ∧ sameExcept readKeys d (data (resourceUserCreate (start d r)).2).
Proof.
  unfold resourceUserCreate.
  apply (wp_func _ (λ _ w, Forall (createCall d) (calls w)
                           ∧ sameExcept readKeys d (data w))).
  cbv zeta. unfold start. wp_step. wp_step.
  assert (Hcreate : ∀ params,
            AdminCreateUserInput.Username params
            = Some (schema.asString (schema.Get "username" d)) →
            AdminCreateUserInput.UserPoolId params
            = Some (schema.asString (schema.Get "user_pool_id" d)) →
            createCall d (AdminCreateUser params)).
  { intros params Hu Hp. split; [|done]. unfold callTarget. by rewrite Hu, Hp. }
  wp_step.
  { wp_step. cbv beta. cbn [data]. split; [|solve_sameExcept].
    solve_allCalls. by apply Hcreate. }
  wp_step. wp_step.
  set (I := λ w : World Service Call,
         Forall (createCall d) (calls w) ∧ ∃ id, data w = schema.SetId id d).
  apply (wp_cut I).
  { repeat wp_step; cbv beta; cbn [data];
      (split; [|first [by eexists | solve_sameExcept]]);
      solve_allCalls; first [by apply Hcreate | (split; [done|])];
      by apply negb_true_iff. }
  intros _ [d1 r1 l1] [Hc1 [id1 Hd1]]. cbn [data] in Hd1. subst d1.
  apply (wp_cut I).
  { repeat wp_step; cbv beta; cbn [data];
      (split; [|first [by eexists | solve_sameExcept]]);
      solve_allCalls.
    all: match goal with
         | Hok : schema.GetOk _ _ = (_, true) |- _ =>
             unfold schema.GetOk in Hok; injection Hok as <- Hz;
             apply negb_true_iff in Hz
         end.
    all: by split. }
  intros _ [d2 r2 l2] [Hc2 [id2 Hd2]]. cbn [data] in Hd2. subst d2.
  apply wp_invoke. intros ds w3 Hread. wp_step. cbv beta.
  pose proof (resourceUserRead_calls (mkWorld (schema.SetId id2 d) r2 l2))
    as Hcalls.
  pose proof (resourceUserRead_sameExcept
                (mkWorld (schema.SetId id2 d) r2 l2)) as Hsame.
  rewrite Hread in Hcalls, Hsame. cbn [snd data] in Hcalls, Hsame. split.
  - rewrite Hcalls. apply Forall_app. split; [done|].
    by repeat constructor.
  - eapply sameExcept_trans; [|exact Hsame]. solve_sameExcept.
Qed.

(** Every call of an update, and what the update leaves of the resource
    data. *)
Lemma resourceUserUpdate_calls (d : schema.ResourceData) (r : Service) :
  Forall (updateCall d) (calls (resourceUserUpdate (start d r)).2)
  ∧ sameExcept ("temporary_password" :: "password" :: readKeys) d
      (data (resourceUserUpdate (start d r)).2).
Proof.
  unfold resourceUserUpdate.
  apply (wp_func _ (λ _ w,
           Forall (updateCall d) (calls w)
           ∧ sameExcept ("temporary_password" :: "password" :: readKeys) d
               (data w))).
  cbv zeta. unfold start. wp_step.
  set (I := λ w : World Service Call,
         Forall (updateCall d) (calls w) ∧ data w = d).
  set (I3 := λ w : World Service Call,
         Forall (updateCall d) (calls w)
         ∧ (data w = d ∨ data w = schema.Set_ "temporary_password" None d)).
  set (I4 := λ w : World Service Call,
         Forall (updateCall d) (calls w)
         ∧ sameExcept ["temporary_password"; "password"] d (data w)).
  assert (Hne : ∀ s, negb (String.eqb s "") = true → s ≠ "").
  { intros s Hs. by apply String.eqb_neq, negb_true_iff. }
  apply (wp_cut I).
  { repeat wp_step; cbv beta; cbn [data];
      (split; [|first [done | solve_sameExcept]]);
      solve_allCalls;
      repeat match goal with
             | H : bool_decide _ = true |- _ => apply bool_decide_eq_true in H
             end;
      by repeat split. }
  intros _ [d1 r1 l1] [Hc1 Hd1]. cbn [data] in Hd1. subst d1.
  apply (wp_cut I).
  { repeat wp_step; cbv beta; cbn [data];
      (split; [|first [done | solve_sameExcept]]);
      solve_allCalls; by split. }
  intros _ [d2 r2 l2] [Hc2 Hd2]. cbn [data] in Hd2. subst d2.
  apply (wp_cut I3).
  { repeat wp_step; cbv beta; cbn [data];
      (split; [|first [by left | by right | solve_sameExcept]]);
      solve_allCalls; (split; [done|]); (split; [by apply Hne | done]). }
  intros _ [d3 r3 l3] [Hc3 Hd3]. cbn [data] in Hd3.
  wp_step. apply (wp_cut I4).
  { destruct Hd3 as [-> | ->]; repeat wp_step; cbv beta; cbn [data];
      (split; [|solve_sameExcept]); solve_allCalls;
      rewrite ?Get_clear_ne in * by done;
      (split; [done|]); (split; [by apply Hne | done]). }
  intros _ [d4 r4 l4] [Hc4 Hd4]. cbn [data] in Hd4.
  apply wp_invoke. intros ds w5 Hread. wp_step. cbv beta.
  pose proof (resourceUserRead_calls (mkWorld d4 r4 l4)) as Hcalls.
  pose proof (resourceUserRead_sameExcept (mkWorld d4 r4 l4)) as Hsame.
  rewrite Hread in Hcalls, Hsame. cbn [snd data] in Hcalls, Hsame. split.
  - rewrite Hcalls. apply Forall_app. split; [done|].
    repeat constructor. unfold callTarget, configuredTarget.
    destruct Hd4 as (_ & _ & _ & _ & Hget).
    rewrite !Hget; [done|..]; intros Hin;
      repeat (apply elem_of_cons in Hin as [Hin|Hin]; [discriminate|]);
      by apply elem_of_nil in Hin.
  - eapply sameExcept_trans.
    + eapply sameExcept_weaken; [|exact Hd4].
      intros k Hk. apply elem_of_cons in Hk as [->|Hk]; [by left|].
      apply list_elem_of_singleton in Hk as ->. right. by left.
    + eapply sameExcept_weaken; [|exact Hsame].
      intros k Hk. right. by right.
Qed.

End user_calls.

Section user_calls_properties.
Import cognitoidp.
Context `{!Provider, !Client, !MapRange}.

(** X14.  Every call that a create or an update issues addresses the user
    and the pool named in the resource data. *)
Theorem calls_address_configured_user (d : schema.ResourceData)
    (r : Service) :
  Forall (λ c, callTarget c = configuredTarget d)
         (calls (resourceUserCreate (start d r)).2)
  ∧ Forall (λ c, callTarget c = configuredTarget d)
           (calls (resourceUserUpdate (start d r)).2).
Proof.
  split.
  - eapply Forall_impl; [apply resourceUserCreate_calls|]. by intros c [? _].
  - eapply Forall_impl; [apply resourceUserUpdate_calls|]. by intros c [? _].
Qed.

(** X15.  A create never enables a user, never updates or deletes
    attributes and never deletes the user; an update never creates and
    never deletes the user. *)
Theorem create_update_call_kinds (d : schema.ResourceData) (r : Service) :
  Forall (λ c, match c with
               | AdminCreateUser _ | AdminDisableUser _ _
               | AdminSetUserPassword _ _ _ _ | AdminGetUser _ _ => True
               | _ => False
               end) (calls (resourceUserCreate (start d r)).2)
  ∧ Forall (λ c, match c with
                 | AdminCreateUser _ | AdminDeleteUser _ _ => False
                 | _ => True
                 end) (calls (resourceUserUpdate (start d r)).2).
Proof.
  split.
  - eapply Forall_impl; [apply resourceUserCreate_calls|].
    intros c [_ Hc]. by destruct c.
  - eapply Forall_impl; [apply resourceUserUpdate_calls|].
    intros c [_ Hc]. by destruct c.
Qed.

(** X16.  Passwords.  A create sets a password only as permanent, and it is
    the [password] of the resource data, which is set.  An update never
    sends an empty password, sends [temporary_password] as temporary and
    [password] as permanent, never the other way round. *)
Theorem password_calls (d : schema.ResourceData) (r : Service) :
  Forall (λ c, match c with
               | AdminSetUserPassword _ _ password permanent =>
                   permanent = true
                   ∧ password = schema.asString (schema.Get "password" d)
                   ∧ schema.isZero (schema.Get "password" d) = false
               | _ => True
               end) (calls (resourceUserCreate (start d r)).2)
  ∧ Forall (λ c, match c with
                 | AdminSetUserPassword _ _ password permanent =>
                     password ≠ ""
                     ∧ password
                       = schema.asString
                           (schema.Get (if permanent then "password"
                                        else "temporary_password") d)
                 | _ => True
                 end) (calls (resourceUserUpdate (start d r)).2).
Proof.
  split.
  - eapply Forall_impl; [apply resourceUserCreate_calls|].
    intros c [_ Hc]. by destruct c.
  - eapply Forall_impl; [apply resourceUserUpdate_calls|].
    intros c [_ Hc]. by destruct c.
Qed.

(** X17.  Enabling and disabling follow the resource data: an update calls
    [AdminEnableUser] only when [enabled] has changed and is now true, and
    [AdminDisableUser] only when it has changed and is now false; a create
    calls [AdminDisableUser] only when [enabled] is false. *)
Theorem enable_disable_follow_enabled (d : schema.ResourceData)
    (r : Service) :
  Forall (λ c, match c with
               | AdminDisableUser _ _ =>
                   schema.asBool (schema.Get "enabled" d) = false
               | _ => True
               end) (calls (resourceUserCreate (start d r)).2)
  ∧ Forall (λ c, match c with
                 | AdminEnableUser _ _ =>
                     schema.HasChange "enabled" d = true
                     ∧ schema.asBool (schema.Get "enabled" d) = true
                 | AdminDisableUser _ _ =>
                     schema.HasChange "enabled" d = true
                     ∧ schema.asBool (schema.Get "enabled" d) = false
                 | _ => True
                 end) (calls (resourceUserUpdate (start d r)).2).
Proof.
  split.
  - eapply Forall_impl; [apply resourceUserCreate_calls|].
    intros c [_ Hc]. by destruct c.
  - eapply Forall_impl; [apply resourceUserUpdate_calls|].
    intros c [_ Hc]. by destruct c.
Qed.

(** X18.  What an update sends for the attributes is what
    [computeUserAttributesUpdate] returned: [AdminUpdateUserAttributes]
    carries the expanded upsert map, which is not empty, and
    [AdminDeleteUserAttributes] the expanded delete list, which is not
    empty. *)
Theorem update_sends_computed_attributes (d : schema.ResourceData)
    (r : Service) :
  Forall (λ c, match c with
               | AdminUpdateUserAttributes _ _ attributes _ =>
                   attributes = expandAttribute (upd (attributesChange d))
                   ∧ upd (attributesChange d) ≠ ∅
               | AdminDeleteUserAttributes _ _ names =>
                   names
                   = expandUserAttributesDelete (del (attributesChange d))
                   ∧ del (attributesChange d) ≠ []
               | _ => True
               end) (calls (resourceUserUpdate (start d r)).2).
Proof.
  eapply Forall_impl; [apply resourceUserUpdate_calls|].
  intros c [_ Hc]. destruct c; try done; destruct Hc as [-> Hpos].
  - split; [done|]. intros Hempty. rewrite Hempty, map_size_empty in Hpos. lia.
  - split; [done|]. intros Hempty. rewrite Hempty in Hpos. simpl in Hpos. lia.
Qed.

(** X19.  A create and an update write to the attributes that the read
    refreshes and, the update, to [temporary_password] and [password]; the
    prior state, the plan and every other attribute, [username] and
    [user_pool_id] among them, are as before. *)
Theorem create_update_frame (d : schema.ResourceData) (r : Service) :
  sameExcept readKeys d (data (resourceUserCreate (start d r)).2)
  ∧ sameExcept ("temporary_password" :: "password" :: readKeys) d
      (data (resourceUserUpdate (start d r)).2).
Proof.
  split; [apply resourceUserCreate_calls | apply resourceUserUpdate_calls].
Qed.

(** X20.  An update in which none of [attributes], [enabled],
    [temporary_password] and [password] has changed issues one call, the
    lookup of the user, and returns what the read returns. *)
Theorem update_without_changes_only_reads (d : schema.ResourceData)
    (r : Service) :
  schema.HasChange "attributes" d = false →
  schema.HasChange "enabled" d = false →
  schema.HasChange "temporary_password" d = false →
  schema.HasChange "password" d = false →
  resourceUserUpdate (start d r) = resourceUserRead (start d r)
  ∧ calls (resourceUserUpdate (start d r)).2
    = [AdminGetUser (schema.asString (schema.Get "username" d))
         (schema.asString (schema.Get "user_pool_id" d))].
Proof.
  intros Ha He Ht Hp.
  assert (resourceUserUpdate (start d r) = resourceUserRead (start d r))
    as Heq.
  { unfold resourceUserUpdate. unfold_monad. unfold start. cbn [data].
    rewrite Ha, He, Ht. cbn [data]. rewrite Hp.
    by destruct (resourceUserRead _). }
  split; [done|]. rewrite Heq. apply resourceUserRead_calls.
Qed.

(** X21.  Reading a new resource never clears the ID, whatever the lookup
    reports. *)
Theorem read_new_user_keeps_id (w : World Service Call) :
  schema.IsNewResource (data w) = true →
  schema.Id (data (resourceUserRead w).2) = schema.Id (data w).
Proof.
  intros Hnew. pose proof (resourceUserRead_effect w) as Hf.
  destruct (resourceUserRead w) as [ds w'].
  destruct Hf as (_ & _ & [Hid | [Hn _]]); [done | congruence].
Qed.

End user_calls_properties.

(** ** Import, continued *)

(** X22.  [resourceUserImport] succeeds exactly on the IDs that hold one
    [/].  It never changes the ID, and after a success the ID is
    [user_pool_id], a [/], and [username], neither of which holds a [/]. *)
Theorem resourceUserImport_one_slash (d : schema.ResourceData) :
  let '(imported, err, d') := cognitoidp.resourceUserImport d in
  (err = None ↔ Count (schema.Id d) "/" = 1)
  ∧ schema.Id d' = schema.Id d
  ∧ (err = None →
     let userPoolId := schema.asString (schema.Get "user_pool_id" d') in
     let name := schema.asString (schema.Get "username" d') in
     schema.Id d = userPoolId +:+ "/" +:+ name
     ∧ Count userPoolId "/" = 0 ∧ Count name "/" = 0).
Proof.
  unfold cognitoidp.resourceUserImport.
  pose proof (Split_length (schema.Id d) "/") as Hlen.
  pose proof (Join_Split (schema.Id d) "/") as Hjoin.
  pose proof (Split_parts (schema.Id d) "/") as Hparts.
  destruct (Split (schema.Id d) "/") as [|a [|b [|c l]]] eqn:E;
    cbn [length] in Hlen.
  - split_and!; [split; [done | lia] | done | done].
  - split_and!; [split; [done | lia] | done | done].
  - split_and!; [split; [intros _; lia | done] | done |].
    intros _. cbn zeta. unfold schema.Get, schema.Set_. cbn.
    rewrite lookup_insert_ne, !lookup_insert_eq by done. cbn.
    apply Forall_cons in Hparts as [Ha Hb%Forall_cons]. destruct Hb as [Hb _].
    split_and!; [|done..]. by rewrite <-Hjoin.
  - split_and!; [split; [done | lia] | done | done].
Qed.

Lemma update_without_changes_only_reads_witness :
  schema.HasChange "attributes" unchanged = false
  ∧ schema.HasChange "enabled" unchanged = false
  ∧ schema.HasChange "temporary_password" unchanged = false
  ∧ schema.HasChange "password" unchanged = false
  ∧ calls (@cognitoidp.resourceUserUpdate exampleProvider
             (scripted allSucceed) range_canonical (start unchanged 0)).2
    = [cognitoidp.AdminGetUser "alice" "us-east-1_pool"].
Proof.
  assert (schema.HasChange "attributes" unchanged = false) as Ha
    by (vm_compute; reflexivity).
  assert (schema.HasChange "enabled" unchanged = false) as He
    by (vm_compute; reflexivity).
  assert (schema.HasChange "temporary_password" unchanged = false) as Ht
    by (vm_compute; reflexivity).
  assert (schema.HasChange "password" unchanged = false) as Hp
    by (vm_compute; reflexivity).
  split_and!; [assumption..|].
  exact (proj2 (@update_without_changes_only_reads exampleProvider
                  (scripted allSucceed) range_canonical unchanged 0
                  Ha He Ht Hp)).
Defined.

Lemma read_new_user_keeps_id_witness :
  let w := start (C:=cognitoidp.Call) toCreate 0 in
  schema.IsNewResource (data w) = true
  ∧ schema.Id (data (@cognitoidp.resourceUserRead exampleProvider
                       (scripted userGone) w).2) = schema.Id (data w).
Proof.
  intros w. split; [reflexivity|].
  exact (@read_new_user_keeps_id exampleProvider (scripted userGone) w
           eq_refl).
Defined.

Lemma resourceUserImport_one_slash_witness :
  let d := schema.SetId "us-east-1_pool/alice" toCreate in
  (cognitoidp.resourceUserImport d).1.2 = None
  ∧ schema.Id d
    = schema.asString
        (schema.Get "user_pool_id" (cognitoidp.resourceUserImport d).2)
      +:+ "/"
      +:+ schema.asString
            (schema.Get "username" (cognitoidp.resourceUserImport d).2).
Proof.
  intros d. pose proof (resourceUserImport_one_slash d) as Hspec.
  destruct (cognitoidp.resourceUserImport d) as [[imported err] d'] eqn:E.
  destruct Hspec as (Hiff & _ & Hok).
  assert (err = None) as Herr by (apply Hiff; reflexivity).
  split; [exact Herr|]. by destruct (Hok Herr) as [? _].
Defined.

(** ** The handlers of the policy attachment *)

Section attachment_handlers.
Import networkmanager.
Context `{!Provider, !Client}.

(** The calls and the writes of the read of the attachment. *)
Lemma attachmentRead_effect (w : World Service Call) :
  let '(ds, w') := resourceCoreNetworkPolicyAttachmentRead w in
  (calls w' = calls w ++ [GetCoreNetwork (schema.Id (data w))]
   ∨ calls w' = calls w ++ [GetCoreNetwork (schema.Id (data w));
                            GetCoreNetworkPolicy (schema.Id (data w))])
  ∧ sameExcept attachmentReadKeys (data w) (data w')
  ∧ (schema.Id (data w') = schema.Id (data w)
     ∨ (schema.IsNewResource (data w) = false
        ∧ schema.Id (data w') = "" ∧ ds = [])).
Proof.
  unfold resourceCoreNetworkPolicyAttachmentRead. unfold_monad.
  unfold calls, attachmentReadKeys.
  destruct (FindCoreNetworkByID _ _) as [[err|cn] n1]; cbn [errOf NotFound].
  - destruct (negb _ && _) eqn:Hclear; cbn [data log]; rewrite fmap_app.
    + apply andb_true_iff in Hclear as [Hn%negb_true_iff _].
      split_and!; [by left | solve_sameExcept | by right].
    + split_and!; [by left | solve_sameExcept | by left].
  - rewrite andb_false_r. cbn [data remote log].
    destruct (FindCoreNetworkPolicyByID _ _) as [[err|doc] n2];
      cbn [errOf NotFound].
    + destruct (isNotFound err); cbn [data log];
        rewrite <-app_assoc, fmap_app;
        (split_and!; [by right | solve_sameExcept | by left]).
    + destruct (EncodeJSONValue doc); cbn [data log];
        rewrite <-app_assoc, fmap_app;
        (split_and!; [by right | solve_sameExcept | by left]).
Qed.

(** X23.  [resourceCoreNetworkPolicyAttachmentRead] looks up the core
    network under the ID of the resource data and, only when that lookup
    succeeds, the policy under the same ID; it issues no other call.  When
    the network lookup fails it is the only call: the ID is cleared and no
    diagnostic returned when the resource is not new and the error is a
    not-found error, and otherwise the ID stays and an error diagnostic is
    returned.  When it succeeds the ID stays.  In every case the read
    writes to [core_network_id], [state] and [policy_document] and to no
    other attribute. *)
Theorem attachmentRead_frame (w : World Service Call) :
  let id := schema.Id (data w) in
  let '(ds, w') := resourceCoreNetworkPolicyAttachmentRead w in
  match FindCoreNetworkByID id (remote w) with
  | (inl err, _) =>
      log w' = log w ++ [(GetCoreNetwork id, Some err)]
      ∧ if negb (schema.IsNewResource (data w)) && isNotFound err
        then schema.Id (data w') = "" ∧ ds = []
        else schema.Id (data w') = id ∧ diag.HasError ds = true
  | (inr _, r1) =>
      log w' = log w ++ [(GetCoreNetwork id, None);
                         (GetCoreNetworkPolicy id,
                          errOf (FindCoreNetworkPolicyByID id r1).1)]
      ∧ schema.Id (data w') = id
  end
  ∧ sameExcept attachmentReadKeys (data w) (data w').
Proof.
  unfold resourceCoreNetworkPolicyAttachmentRead. unfold_monad.
  unfold attachmentReadKeys. cbv zeta.
  destruct (FindCoreNetworkByID _ _) as [[err|cn] n1]; cbn [errOf NotFound].
  - destruct (negb _ && _) eqn:Hclear; cbn [data log];
      (split; [by split | solve_sameExcept]).
  - rewrite andb_false_r. cbn [data remote log].
    destruct (FindCoreNetworkPolicyByID _ _) as [[err|doc] n2];
      cbn [errOf NotFound fst].
    + destruct (isNotFound err); cbn [data log]; rewrite <-app_assoc;
        (split; [by split | solve_sameExcept]).
    + destruct (EncodeJSONValue doc); cbn [data log]; rewrite <-app_assoc;
        (split; [by split | solve_sameExcept]).
Qed.

Lemma attachmentRead_outcome (w : World Service Call) :
  Forall (λ c, callNetwork c = schema.Id (data w)) (calls w) →
  let w' := (resourceCoreNetworkPolicyAttachmentRead w).2 in
  Forall (λ c, callNetwork c = schema.Id (data w)) (calls w')
  ∧ sameExcept attachmentReadKeys (data w) (data w')
  ∧ (schema.Id (data w') = schema.Id (data w)
     ∨ (schema.IsNewResource (data w) = false ∧ schema.Id (data w') = "")).
Proof.
  intros Hall. pose proof (attachmentRead_effect w) as Hf.
  destruct (resourceCoreNetworkPolicyAttachmentRead w) as [ds w'].
  destruct Hf as (Hcalls & Hsame & Hid). cbn [snd]. split_and!; [|done|].
  - destruct Hcalls as [-> | ->]; apply Forall_app; split; try done;
      by repeat constructor.
  - destruct Hid as [?|(? & ? & _)]; [by left | by right].
Qed.

(** Every call of an update, and what the update leaves of the resource
    data. *)
Lemma attachmentUpdate_outcome (d : schema.ResourceData) (r : Service) :
  let w' := (resourceCoreNetworkPolicyAttachmentUpdate (start d r)).2 in
  Forall (λ c, callNetwork c = schema.Id d) (calls w')
  ∧ sameExcept attachmentReadKeys d (data w')
  ∧ (schema.Id (data w') = schema.Id d
     ∨ (schema.IsNewResource d = false ∧ schema.Id (data w') = "")).
Proof.
  unfold resourceCoreNetworkPolicyAttachmentUpdate.
  apply (wp_func _ (λ _ w,
           Forall (λ c, callNetwork c = schema.Id d) (calls w)
           ∧ sameExcept attachmentReadKeys d (data w)
           ∧ (schema.Id (data w) = schema.Id d
              ∨ (schema.IsNewResource d = false ∧ schema.Id (data w) = "")))).
  unfold start. wp_step.
  set (I := λ w : World Service Call,
         Forall (λ c, callNetwork c = schema.Id d) (calls w) ∧ data w = d).
  apply (wp_cut I).
  { repeat wp_step; cbv beta; cbn [data];
      first [ split; [solve_allCalls; done | done]
            | split_and!; [solve_allCalls; done | solve_sameExcept | by left] ]. }
  intros _ [d1 r1 l1] [Hc1 Hd1]. cbn [data] in Hd1. subst d1.
  apply wp_invoke. intros ds w2 Hread. wp_step. cbv beta.
  pose proof (attachmentRead_outcome (mkWorld d r1 l1) Hc1) as Hout.
  by rewrite Hread in Hout.
Qed.

(** X24.  Every call that an update of the attachment issues addresses the
    core network whose ID the resource data holds; the update writes to
    [core_network_id], [state] and [policy_document] only, and keeps the ID
    unless the resource is not new and the read clears it. *)
Theorem attachmentUpdate_frame (d : schema.ResourceData) (r : Service) :
  let w' := (resourceCoreNetworkPolicyAttachmentUpdate (start d r)).2 in
  Forall (λ c, callNetwork c = schema.Id d) (calls w')
  ∧ sameExcept attachmentReadKeys d (data w')
  ∧ (schema.Id (data w') = schema.Id d
     ∨ (schema.IsNewResource d = false ∧ schema.Id (data w') = "")).
Proof. apply attachmentUpdate_outcome. Qed.

(** X25.  Creating an attachment that is new leaves, in every case, error
    or not, the configured [core_network_id] as the ID, and every call it
    issues addresses that core network. *)
Theorem attachmentCreate_id (d : schema.ResourceData) (r : Service) :
  schema.IsNewResource d = true →
  let w' := (resourceCoreNetworkPolicyAttachmentCreate (start d r)).2 in
  schema.Id (data w') = schema.asString (schema.Get "core_network_id" d)
  ∧ Forall (λ c, callNetwork c
                 = schema.asString (schema.Get "core_network_id" d))
           (calls w').
Proof.
  intros Hnew. unfold resourceCoreNetworkPolicyAttachmentCreate.
  apply (wp_func _ (λ _ w,
           schema.Id (data w) = schema.asString (schema.Get "core_network_id" d)
           ∧ Forall (λ c, callNetwork c
                          = schema.asString (schema.Get "core_network_id" d))
               (calls w))).
  unfold start. wp_step. wp_step. apply wp_invoke. intros ds w1 Hupd.
  wp_step. cbv beta.
  pose proof (attachmentUpdate_outcome
                (schema.SetId (schema.asString (schema.Get "core_network_id" d)) d)
                r) as Hout.
  unfold start in Hout. rewrite Hupd in Hout. cbn [snd] in Hout.
  destruct Hout as (Hcalls & _ & Hid). split; [|done].
  destruct Hid as [Hid | [Hn _]]; [done|]. cbn in Hn. congruence.
Qed.

(** X26.  When the policy document is to change and putting it or waiting
    for the core network fails, the update returns an error diagnostic,
    has written nothing to the resource data and has issued no lookup: a
    failed put is the only call, a failed wait the second of two. *)
Theorem attachmentUpdate_failure (d : schema.ResourceData) (r : Service) :
  schema.HasChange "policy_document" d = true →
  let '(ds, w') := resourceCoreNetworkPolicyAttachmentUpdate (start d r) in
  let policy := schema.asString (schema.Get "policy_document" d) in
  match PutAndExecuteCoreNetworkPolicy (schema.Id d) policy r with
  | (Some _, _) =>
      diag.HasError ds = true ∧ data w' = d
      ∧ calls w' = [PutCoreNetworkPolicy (schema.Id d) policy]
  | (None, r1) =>
      match waitCoreNetworkUpdated (schema.Id d) (schema.TimeoutUpdate d) r1
      with
      | (Some _, _) =>
          diag.HasError ds = true ∧ data w' = d
          ∧ calls w' = [PutCoreNetworkPolicy (schema.Id d) policy;
                        WaitCoreNetworkUpdated (schema.Id d)
                          (schema.TimeoutUpdate d)]
      | (None, _) =>
          take 2 (calls w')
          = [PutCoreNetworkPolicy (schema.Id d) policy;
             WaitCoreNetworkUpdated (schema.Id d) (schema.TimeoutUpdate d)]
      end
  end.
Proof.
  intros Hch. unfold resourceCoreNetworkPolicyAttachmentUpdate.
  unfold_monad. unfold start. cbn [data remote log]. rewrite Hch.
  destruct (PutAndExecuteCoreNetworkPolicy _ _ _) as [[e|] r1];
    cbn [data remote log]; [done|].
  destruct (waitCoreNetworkUpdated _ _ _) as [[e|] r2];
    cbn [data remote log]; [done|].
  pose proof (attachmentRead_effect
                (mkWorld d r2
                   [(PutCoreNetworkPolicy (schema.Id d)
                       (schema.asString (schema.Get "policy_document" d)),
                     id None);
                    (WaitCoreNetworkUpdated (schema.Id d)
                       (schema.TimeoutUpdate d), id None)])) as Hf.
  cbn [app] in *.
  destruct (resourceCoreNetworkPolicyAttachmentRead _) as [ds w'].
  by destruct Hf as ([-> | ->] & _).
Qed.

(** X27.  When the policy document is not to change, the update is the
    read: it puts no policy and waits for nothing. *)
Theorem attachmentUpdate_unchanged (d : schema.ResourceData) (r : Service) :
  schema.HasChange "policy_document" d = false →
  resourceCoreNetworkPolicyAttachmentUpdate (start d r)
  = resourceCoreNetworkPolicyAttachmentRead (start d r)
  ∧ countCalls isPutOrWait
      (resourceCoreNetworkPolicyAttachmentUpdate (start d r)).2 = 0.
Proof.
  intros Hch.
  assert (resourceCoreNetworkPolicyAttachmentUpdate (start d r)
          = resourceCoreNetworkPolicyAttachmentRead (start d r)) as Heq.
  { unfold resourceCoreNetworkPolicyAttachmentUpdate. unfold_monad.
    unfold start. cbn [data]. rewrite Hch.
    by destruct (resourceCoreNetworkPolicyAttachmentRead _). }
  split; [done|]. rewrite Heq.
  pose proof (attachmentRead_effect (start d r)) as Hf.
  destruct (resourceCoreNetworkPolicyAttachmentRead _) as [ds w'].
  destruct Hf as (Hcalls & _). cbn [snd]. unfold countCalls.
  by destruct Hcalls as [-> | ->].
Qed.

End attachment_handlers.

(** ** The schema of the policy attachment *)

Lemma HasPrefix_length (s prefix : string) :
  HasPrefix s prefix = true →
  String.length s
  = String.length prefix + String.length (string_skip (String.length prefix) s).
Proof.
  revert s. induction prefix as [|c prefix IH]; intros s; [done|].
  destruct s as [|c' s]; [done|]. cbn.
  intros [_ Hp]%andb_true_iff. by rewrite (IH s Hp).
Qed.

(** X28.  Of the two validators of [core_network_id], the pattern is the
    one that decides: a string that matches it has between 21 and 30 bytes
    and so always passes the length check of 0 to 50. *)
Theorem core_network_id_length (s : string) :
  matchesCoreNetworkID s = true →
  (21 ≤ String.length s ≤ 30)%nat ∧ StringLenBetween 0 50 s = true.
Proof.
  unfold matchesCoreNetworkID, StringLenBetween.
  intros [Hp [[Hlo Hhi]%andb_true_iff _]%andb_true_iff]%andb_true_iff.
  apply HasPrefix_length in Hp. cbn [String.length] in Hp.
  apply Nat.leb_le in Hlo, Hhi.
  assert (21 ≤ String.length s ≤ 30)%nat as Hlen by lia.
  split; [done|]. apply andb_true_iff. split; apply Nat.leb_le; lia.
Qed.

Lemma core_network_id_length_witness :
  matchesCoreNetworkID "core-network-0123456789abcdef0" = true
  ∧ StringLenBetween 0 50 "core-network-0123456789abcdef0" = true.
Proof.
  assert (matchesCoreNetworkID "core-network-0123456789abcdef0" = true)
    as Hm by reflexivity.
  split; [exact Hm|].
  exact (proj2 (core_network_id_length _ Hm)).
Defined.

Lemma attachmentCreate_id_witness :
  schema.IsNewResource newAttachment = true
  ∧ schema.Id
      (data (@networkmanager.resourceCoreNetworkPolicyAttachmentCreate
               exampleProvider networkMissing (start newAttachment 0)).2)
    = "core-network-0123456789abcdef0".
Proof.
  split; [reflexivity|].
  exact (proj1 (@attachmentCreate_id exampleProvider networkMissing
                  newAttachment 0 eq_refl)).
Defined.

Lemma attachmentUpdate_failure_witness :
  schema.HasChange "policy_document" attachmentChanged = true
  ∧ diag.HasError
      (@networkmanager.resourceCoreNetworkPolicyAttachmentUpdate
         exampleProvider putFails (start attachmentChanged 0)).1 = true
  ∧ data (@networkmanager.resourceCoreNetworkPolicyAttachmentUpdate
            exampleProvider putFails (start attachmentChanged 0)).2
    = attachmentChanged
  ∧ calls (@networkmanager.resourceCoreNetworkPolicyAttachmentUpdate
             exampleProvider putFails (start attachmentChanged 0)).2
    = [networkmanager.PutCoreNetworkPolicy "core-network-0123456789abcdef0"
         "{ }"].
Proof.
  assert (schema.HasChange "policy_document" attachmentChanged = true) as Hch
    by (vm_compute; reflexivity).
  split; [exact Hch|].
  pose proof (@attachmentUpdate_failure exampleProvider putFails
                attachmentChanged 0 Hch) as Hf.
  destruct (networkmanager.resourceCoreNetworkPolicyAttachmentUpdate _)
    as [ds w'].
  exact Hf.
Defined.

Lemma attachmentUpdate_unchanged_witness :
  schema.HasChange "policy_document" attachment = false
  ∧ countCalls isPutOrWait
      (@networkmanager.resourceCoreNetworkPolicyAttachmentUpdate
         exampleProvider policyMissing (start attachment 0)).2 = 0.
Proof.
  assert (schema.HasChange "policy_document" attachment = false) as Hch
    by (vm_compute; reflexivity).
  split; [exact Hch|].
  exact (proj2 (@attachmentUpdate_unchanged exampleProvider policyMissing
                  attachment 0 Hch)).
Defined.
